(** * AuthService (src/auth/auth.service.ts)

    A shallow embedding of the NestJS authentication service: sign-up,
    sign-in, token refresh, e-mail check, profile update and user lookup.

    The service owns no data.  Every step is a call into one of three
    collaborators: the [bcrypt] password hasher, the TypeORM
    [Repository<User>] and the [JwtService].  The collaborators are library
    code; they are kept as parameters of the development (the hasher, the
    signer, the role enumeration, the driver's duplicate-key code) or given
    an in-memory reading (the table of user rows).  The service methods are
    transcribed statement by statement into a state-and-exception monad
    whose state is the outside world: the table, the salt generator and the
    journal of collaborator calls. *)

From Stdlib Require Import String Ascii List Bool Arith ZArith Lia.
Import ListNotations.
Local Open Scope string_scope.
Local Open Scope list_scope.

(** ** JavaScript values that matter to the service *)

(** The [code] property of a caught error is compared with [===] against a
    string, so the model keeps the type of the value apart from its
    digits. *)
Inductive JsValue : Type :=
| JsUndefined
| JsNumber (n : Z)
| JsString (s : string).

(** [a === b] on the values above: no coercion between types. *)
Definition js_strict_eq (a b : JsValue) : bool :=
  match a, b with
  | JsUndefined, JsUndefined => true
  | JsNumber x, JsNumber y => Z.eqb x y
  | JsString x, JsString y => String.eqb x y
  | _, _ => false
  end.

(** An optional string used as a condition: [undefined] and [''] are
    falsy. *)
Definition truthy (v : option string) : bool :=
  match v with
  | None => false
  | Some s => negb (String.eqb s "")
  end.

(** The double quote, for the message of [getUser]. *)
Definition dquote : string :=
  String (Ascii false true false false false true false false) EmptyString.

(** ** Data model *)

(** entities/user.entity.ts.  [id] is absent until the row is saved; [role]
    holds a value of the [UserRole] enumeration, or is absent when the
    enumeration was indexed with an unknown key. *)
Module User.
Record t : Type := Build {
  id : option nat;
  username : string;
  password : string;
  email : string;
  tmdb_key : string;
  role : option string
}.
End User.

(** interfaces/jwt-payload.interface.ts, as [createToken] fills it. *)
Module JwtPayload.
Record t : Type := Build {
  id : option nat;
  username : string;
  email : string;
  role : option string;
  tmdb_key : string
}.
End JwtPayload.

(** dto/signup.dto.ts: the five properties [signUp] destructures. *)
Module SignUpCredentialsDto.
Record t : Type := Build {
  username : string;
  password : string;
  email : string;
  tmdb_key : string;
  role : option string
}.
End SignUpCredentialsDto.

(** dto/signin.dto.ts *)
Module SignInCredentialsDto.
Record t : Type := Build {
  email : string;
  password : string
}.
End SignInCredentialsDto.

(** dto/check-email.dto.ts *)
Module CheckEmailDto.
Record t : Type := Build {
  email : string
}.
End CheckEmailDto.

(** dto/refresh-token.dto.ts: [refreshToken] casts the DTO to [User] and
    [createToken] reads these five properties from it. *)
Module RefreshTokenDto.
Record t : Type := Build {
  id : option nat;
  username : string;
  email : string;
  role : option string;
  tmdb_key : string
}.
End RefreshTokenDto.

(** Modelled from the spec: dto/update-user.dto.ts is not among the
    sources.  The spec calls the input of [updateUser] "partial fields
    incl. role" of the user record, and the service spreads every property
    the DTO carries into the update; the model lets each column of the
    record but the identity be present or absent. *)
Module UpdateCredentialDto.
Record t : Type := Build {
  username : option string;
  password : option string;
  email : option string;
  tmdb_key : option string;
  role : option string
}.
End UpdateCredentialDto.

(** The [partialEntity] argument of [Repository.update]. *)
Module PartialUser.
Record t : Type := Build {
  username : option string;
  password : option string;
  email : option string;
  tmdb_key : option string;
  role : option string
}.
End PartialUser.

(** The object every token-returning method resolves to. *)
Record TokenResponse : Type := { accessToken : string }.

(** ** Errors *)

(** An error raised by the database driver; the service reads [code]. *)
Record DriverError : Type := { code : JsValue }.

(** The exceptions of @nestjs/common that the service throws. *)
Inductive HttpException : Type :=
| ConflictException (message : string)
| InternalServerErrorException
| NotFoundException (message : string)
| UnauthorizedException (message : string).

(** Whatever can travel up a [throw]. *)
Inductive Thrown : Type :=
| FromDriver (e : DriverError)
| Http (h : HttpException).

(** [error.code] in a [catch] clause; an HttpException has no such
    property. *)
Definition error_code (error : Thrown) : JsValue :=
  match error with
  | FromDriver e => code e
  | Http _ => JsUndefined
  end.

(** ** The outside world *)

(** The [where] clauses the service passes to [findOne]. *)
Inductive FindWhere : Type :=
| where_email (email : string)
| where_user (user : User.t).

(** One entry per collaborator call, in the order the calls are made. *)
Inductive Call : Type :=
| call_genSalt
| call_hash (data salt : string)
| call_compare (data encrypted : string)
| call_create (entity : User.t)
| call_save (entity : User.t)
| call_findOne (clause : FindWhere)
| call_update (criteria : option nat) (partialEntity : PartialUser.t)
| call_sign (payload : JwtPayload.t).

(** The table behind [userRepository], the identity the next insert
    receives, the failure the next [save] meets for a reason other than the
    unique indexes (a lost connection, say) if there is one, the number of
    salts drawn so far, and the journal of collaborator calls.  Lookups are
    read as always answering; an update is refused when it breaks a unique
    index, and the service has no error path for either. *)
Record World : Type := {
  rows : list User.t;
  next_id : nat;
  save_fault : option DriverError;
  salts_drawn : nat;
  calls : list Call
}.

Definition journal (c : Call) (w : World) : World :=
  {| rows := rows w; next_id := next_id w; save_fault := save_fault w;
     salts_drawn := salts_drawn w; calls := calls w ++ [c] |}.

Definition draw_salt (w : World) : World :=
  {| rows := rows w; next_id := next_id w; save_fault := save_fault w;
     salts_drawn := S (salts_drawn w); calls := calls w |}.

Definition insert_row (u : User.t) (w : World) : World :=
  {| rows := rows w ++ [u]; next_id := S (next_id w);
     save_fault := save_fault w; salts_drawn := salts_drawn w;
     calls := calls w |}.

Definition set_rows (l : list User.t) (w : World) : World :=
  {| rows := l; next_id := next_id w; save_fault := save_fault w;
     salts_drawn := salts_drawn w; calls := calls w |}.

(** ** Promises that resolve or reject *)

Inductive Outcome (A : Type) : Type :=
| Return (a : A)
| Throw (e : Thrown).

Arguments Return {A} a.
Arguments Throw {A} e.

(** An awaited computation: runs against the world, resolves or rejects,
    and leaves the world as it made it. *)
Definition M (A : Type) : Type := World -> Outcome A * World.

Definition ret {A : Type} (a : A) : M A := fun w => (Return a, w).

Definition throw {A : Type} (e : Thrown) : M A := fun w => (Throw e, w).

Definition bind {A B : Type} (m : M A) (k : A -> M B) : M B :=
  fun w =>
    match m w with
    | (Return a, w') => k a w'
    | (Throw e, w') => (Throw e, w')
    end.

(** [try { m } catch (error) { h error }] *)
Definition try_catch {A : Type} (m : M A) (h : Thrown -> M A) : M A :=
  fun w =>
    match m w with
    | (Return a, w') => (Return a, w')
    | (Throw e, w') => h e w'
    end.

Definition tell (c : Call) : M unit := fun w => (Return tt, journal c w).

Declare Scope await_scope.
Delimit Scope await_scope with await.
Notation "'const' x '<-' 'await' m ';' k" := (bind m (fun x => k))
  (at level 10, x name, m at level 100, k at level 200) : await_scope.
Notation "'await' m ';' k" := (bind m (fun _ => k))
  (at level 10, m at level 100, k at level 200) : await_scope.
Local Open Scope await_scope.

(** What a run resolved to, and the world it left. *)
Definition outcome {A : Type} (r : Outcome A * World) : Outcome A := fst r.
Definition world {A : Type} (r : Outcome A * World) : World := snd r.

(** ** A small deployment to run the service on

    A stand-in for each collaborator and the sign-up of the spec's worked
    example, so that the statements below can be evaluated. *)
Module Demo.

Definition genSalt (n : nat) : string := "$2b$10$N9qo8uLOickgx2ZMRZoMye".

Definition hash (data salt : string) : string := salt ++ data.

Definition compare (data encrypted : string) : bool :=
  String.eqb (hash data (genSalt 0)) encrypted.

Definition show_role (r : option string) : string :=
  match r with
  | Some v => v
  | None => "undefined"
  end.

Definition sign (p : JwtPayload.t) : string :=
  "jwt(" ++ JwtPayload.username p ++ "," ++ JwtPayload.email p ++ ","
  ++ show_role (JwtPayload.role p) ++ "," ++ JwtPayload.tmdb_key p ++ ")".

Definition UserRole (k : string) : option string :=
  if String.eqb k "USER" then Some "USER"
  else if String.eqb k "ADMIN" then Some "ADMIN"
  else None.

Definition duplicate_key_code : JsValue := JsString "11000".

Definition where_user (u r : User.t) : bool :=
  String.eqb (User.username u) (User.username r).

Definition alice : SignUpCredentialsDto.t :=
  {| SignUpCredentialsDto.username := "alice";
     SignUpCredentialsDto.password := "p@ss1234";
     SignUpCredentialsDto.email := "a@x.com";
     SignUpCredentialsDto.tmdb_key := "k1";
     SignUpCredentialsDto.role := None |}.

Definition alice_row : User.t :=
  User.Build (Some 0) "alice" (hash "p@ss1234" (genSalt 0)) "a@x.com" "k1"
             (Some "USER").

Definition empty : World :=
  {| rows := []; next_id := 0; save_fault := None; salts_drawn := 0;
     calls := [] |}.

Definition with_alice : World :=
  {| rows := [alice_row]; next_id := 1; save_fault := None; salts_drawn := 1;
     calls := [] |}.

Definition offline : World :=
  {| rows := []; next_id := 0;
     save_fault := Some {| code := JsString "ECONNREFUSED" |};
     salts_drawn := 0; calls := [] |}.

End Demo.

(** ** The service and its collaborators *)

Section AuthService.

(** bcrypt.  [bcrypt_genSalt n] is the salt the generator hands out on its
    [n]-th call; [bcrypt_hash] and [bcrypt_compare] are the library's
    functions. *)
Variable bcrypt_genSalt : nat -> string.
Variable bcrypt_hash : string -> string -> string.
Variable bcrypt_compare : string -> string -> bool.

(** JwtService.sign, configured elsewhere with its secret and lifetime.
    It is read at one instant: the statements below name the payload handed
    to it and never equate tokens issued by different calls. *)
Variable jwtService_sign : JwtPayload.t -> string.

(** enums/user-role.enum.ts is not among the sources.  [UserRole_index k]
    is [UserRole[k]], absent for a key the enumeration does not have, and
    [UserRole_USER] is [UserRole.USER]. *)
Variable UserRole_index : string -> option string.
Variable UserRole_USER : string.

(** The [code] the driver puts on the error it raises when an insert
    breaks a unique index. *)
Variable duplicate_key_code : JsValue.

(** How the store reads the clause [where: { user }] of [getUser] against
    a row. *)
Variable where_user_matches : User.t -> User.t -> bool.

(** *** bcrypt *)

Definition genSalt : M string :=
  fun w => (Return (bcrypt_genSalt (salts_drawn w)),
            journal call_genSalt (draw_salt w)).

Definition hash (data salt : string) : M string :=
  await tell (call_hash data salt);
  ret (bcrypt_hash data salt).

Definition compare (data encrypted : string) : M bool :=
  await tell (call_compare data encrypted);
  ret (bcrypt_compare data encrypted).

(** *** JwtService *)

Definition sign (payload : JwtPayload.t) : M string :=
  await tell (call_sign payload);
  ret (jwtService_sign payload).

(** *** Repository<User> *)

(** [create] builds an entity from the given properties and stores
    nothing; the identity is still to be assigned. *)
Definition userRepository_create
  (username password email tmdb_key : string) (role : option string)
  : M User.t :=
  let entity := User.Build None username password email tmdb_key role in
  await tell (call_create entity);
  ret entity.

Definition row_matches (clause : FindWhere) (r : User.t) : bool :=
  match clause with
  | where_email e => String.eqb (User.email r) e
  | where_user u => where_user_matches u r
  end.

(** [findOne] resolves to the first row the clause selects, or to null. *)
Definition userRepository_findOne (clause : FindWhere) : M (option User.t) :=
  fun w => (Return (find (row_matches clause) (rows w)),
            journal (call_findOne clause) w).

(** Modelled from the spec: entities/user.entity.ts is not among the
    sources.  The spec's data model makes username and email unique across
    all records; an insert that repeats either is refused. *)
Definition breaks_unique_index (u r : User.t) : bool :=
  String.eqb (User.username r) (User.username u)
  || String.eqb (User.email r) (User.email u).

(** The error a [save] of [u] is rejected with, if it is rejected: the
    failure waiting for it, or else the driver's duplicate-key error when a
    row already holds the username or the email. *)
Definition save_rejection (u : User.t) (w : World) : option DriverError :=
  match save_fault w with
  | Some e => Some e
  | None =>
      if existsb (breaks_unique_index u) (rows w)
      then Some {| code := duplicate_key_code |}
      else None
  end.

Definition with_id (i : nat) (u : User.t) : User.t :=
  User.Build (Some i) (User.username u) (User.password u) (User.email u)
             (User.tmdb_key u) (User.role u).

(** [save] of a new entity: inserts it under a fresh identity, or
    rejects. *)
Definition userRepository_save (entity : User.t) : M User.t :=
  fun w =>
    let w1 := journal (call_save entity) w in
    match save_rejection entity w1 with
    | Some e => (Throw (FromDriver e), w1)
    | None =>
        let saved := with_id (next_id w1) entity in
        (Return saved, insert_row saved w1)
    end.

Definition or_else {A : Type} (new : option A) (old : A) : A :=
  match new with
  | Some v => v
  | None => old
  end.

(** A row after [$set]ting the properties a partial entity defines;
    properties that are undefined leave their column alone. *)
Definition patch (p : PartialUser.t) (r : User.t) : User.t :=
  User.Build
    (User.id r)
    (or_else (PartialUser.username p) (User.username r))
    (or_else (PartialUser.password p) (User.password r))
    (or_else (PartialUser.email p) (User.email r))
    (or_else (PartialUser.tmdb_key p) (User.tmdb_key r))
    (match PartialUser.role p with
     | Some v => Some v
     | None => User.role r
     end).

(** The rows an identity criterion selects; an undefined identity selects
    none. *)
Definition has_id (criteria : option nat) (r : User.t) : bool :=
  match criteria, User.id r with
  | Some i, Some j => Nat.eqb i j
  | _, _ => false
  end.

(** Modelled from the spec: entities/user.entity.ts is not among the
    sources.  The unique indexes of the spec's data model guard updates as
    they guard inserts.  A row breaks one when the update gives its
    [column] a value it did not have and that a row of the table holds. *)
Definition takes_held_value (column : User.t -> string)
  (new : option string) (r : User.t) (table : list User.t) : bool :=
  match new with
  | None => false
  | Some v =>
      negb (String.eqb v (column r))
      && existsb (fun x => String.eqb (column x) v) table
  end.

(** The error an update is rejected with, if it is rejected: the driver's
    duplicate-key error when a selected row would take a username or an
    e-mail that is held already. *)
Definition update_rejection (criteria : option nat)
  (partialEntity : PartialUser.t) (w : World) : option DriverError :=
  if existsb
       (fun r =>
          has_id criteria r
          && (takes_held_value User.username
                (PartialUser.username partialEntity) r (rows w)
              || takes_held_value User.email
                   (PartialUser.email partialEntity) r (rows w)))
       (rows w)
  then Some {| code := duplicate_key_code |}
  else None.

(** [update(id, partialEntity)] patches the selected rows, or rejects and
    writes nothing. *)
Definition userRepository_update
  (criteria : option nat) (partialEntity : PartialUser.t) : M unit :=
  fun w =>
    let w1 := journal (call_update criteria partialEntity) w in
    match update_rejection criteria partialEntity w1 with
    | Some e => (Throw (FromDriver e), w1)
    | None =>
        (Return tt,
         set_rows
           (map (fun r => if has_id criteria r
                          then patch partialEntity r else r)
                (rows w))
           w1)
    end.

(** *** AuthService *)

(** The object literal of [createToken], lines 115-121. *)
Definition payload_of (user : User.t) : JwtPayload.t :=
  {| JwtPayload.id := User.id user;
     JwtPayload.username := User.username user;
     JwtPayload.email := User.email user;
     JwtPayload.role := User.role user;
     JwtPayload.tmdb_key := User.tmdb_key user |}.

Definition createToken (user : User.t) : M string :=
  let payload := payload_of user in
  const accessToken <- await sign payload;
  ret accessToken.

(** The handler of the [catch] in [signUp], lines 53-62. *)
Definition signUp_catch (error : Thrown) : M TokenResponse :=
  if js_strict_eq (error_code error) (JsString "11000")
  then throw (Http (ConflictException "Username already exists"))
  else throw (Http InternalServerErrorException).

Definition signUp (signupCredentialsDto : SignUpCredentialsDto.t)
  : M TokenResponse :=
  let username := SignUpCredentialsDto.username signupCredentialsDto in
  let password := SignUpCredentialsDto.password signupCredentialsDto in
  let email := SignUpCredentialsDto.email signupCredentialsDto in
  let tmdb_key := SignUpCredentialsDto.tmdb_key signupCredentialsDto in
  let role := SignUpCredentialsDto.role signupCredentialsDto in
  const salt <- await genSalt;
  const hashedPassword <- await hash password salt;
  const user <- await userRepository_create username hashedPassword email
                  tmdb_key
                  (if truthy role
                   then match role with
                        | Some k => UserRole_index k
                        | None => None
                        end
                   else Some UserRole_USER);
  try_catch
    (const accessToken <- await createToken user;
     const thisuser <- await userRepository_save user;
     ret {| accessToken := accessToken |})
    signUp_catch.

Definition signIn (signinCredentialsDto : SignInCredentialsDto.t)
  : M TokenResponse :=
  let email := SignInCredentialsDto.email signinCredentialsDto in
  let password := SignInCredentialsDto.password signinCredentialsDto in
  const user <- await userRepository_findOne (where_email email);
  match user with
  | Some user =>
      const ok <- await compare password (User.password user);
      if ok
      then const accessToken <- await createToken user;
           ret {| accessToken := accessToken |}
      else throw (Http (UnauthorizedException
                          "Please check your login credentials"))
  | None =>
      throw (Http (UnauthorizedException
                     "Please check your login credentials"))
  end.

(** [refreshTokenDto as User]: the cast adds no property.  The password the
    record type asks for is absent on the object; [createToken] never reads
    it (see [createToken_password_blind]). *)
Definition as_User (d : RefreshTokenDto.t) : User.t :=
  User.Build (RefreshTokenDto.id d) (RefreshTokenDto.username d) ""
             (RefreshTokenDto.email d) (RefreshTokenDto.tmdb_key d)
             (RefreshTokenDto.role d).

Definition refreshToken (refreshTokenDto : RefreshTokenDto.t)
  : M TokenResponse :=
  const accessToken <- await createToken (as_User refreshTokenDto);
  ret {| accessToken := accessToken |}.

Definition checkEmail (dto : CheckEmailDto.t) : M bool :=
  let email := CheckEmailDto.email dto in
  const user <- await userRepository_findOne (where_email email);
  ret (match user with Some _ => true | None => false end).

(** [{ ...updateCredentialDto, role: UserRole[role] }], lines 97-98. *)
Definition update_literal (updateCredentialDto : UpdateCredentialDto.t)
  : PartialUser.t :=
  let role := UpdateCredentialDto.role updateCredentialDto in
  {| PartialUser.username := UpdateCredentialDto.username updateCredentialDto;
     PartialUser.password := UpdateCredentialDto.password updateCredentialDto;
     PartialUser.email := UpdateCredentialDto.email updateCredentialDto;
     PartialUser.tmdb_key := UpdateCredentialDto.tmdb_key updateCredentialDto;
     PartialUser.role := match role with
                         | Some k => UserRole_index k
                         | None => None
                         end |}.

Definition updateUser (updateCredentialDto : UpdateCredentialDto.t)
  (user : User.t) : M TokenResponse :=
  const updatedUser <- await userRepository_update (User.id user)
                         (update_literal updateCredentialDto);
  const accessToken <- await createToken user;
  ret {| accessToken := accessToken |}.

Definition getUser (user : User.t) : M User.t :=
  const existUser <- await userRepository_findOne (where_user user);
  match existUser with
  | None =>
      throw (Http (NotFoundException
                     ("User " ++ dquote ++ User.username user ++ dquote
                      ++ " not found!")))
  | Some _ => ret user
  end.

(** ** Predicates of the statements *)

(** The error [signIn] rejects with. *)
Definition unauthorized : Thrown :=
  Http (UnauthorizedException "Please check your login credentials").

(** Some row of the table carries the e-mail. *)
Definition registered (email : string) (w : World) : Prop :=
  exists u, In u (rows w) /\ User.email u = email.

(** The table respects the unique index on e-mail. *)
Definition unique_emails (w : World) : Prop :=
  NoDup (map User.email (rows w)).

(** A role a sign-up may carry: none, or the non-empty name of a member of
    the enumeration whose value is that name. *)
Definition valid_role (r : option string) : Prop :=
  match r with
  | None => True
  | Some k => k <> "" /\ UserRole_index k = Some k
  end.

(** The entity [signUp] hands to [create] when it runs in world [w]. *)
Definition new_user (dto : SignUpCredentialsDto.t) (w : World) : User.t :=
  User.Build None
    (SignUpCredentialsDto.username dto)
    (bcrypt_hash (SignUpCredentialsDto.password dto)
                 (bcrypt_genSalt (salts_drawn w)))
    (SignUpCredentialsDto.email dto)
    (SignUpCredentialsDto.tmdb_key dto)
    (if truthy (SignUpCredentialsDto.role dto)
     then match SignUpCredentialsDto.role dto with
          | Some k => UserRole_index k
          | None => None
          end
     else Some UserRole_USER).

(** A decoder that recovers what the signer signed. *)
Definition inverts_sign (decode : string -> option JwtPayload.t) : Prop :=
  forall p, decode (jwtService_sign p) = Some p.

(** A string the password hasher produced. *)
Definition hashed_by_bcrypt (h : string) : Prop :=
  exists data salt, h = bcrypt_hash data salt.

(** Every row stores a hash in its password column. *)
Definition passwords_hashed (w : World) : Prop :=
  Forall (fun r => hashed_by_bcrypt (User.password r)) (rows w).

(** An update that sets nothing but a new password. *)
Definition new_password_only (pw : string) : UpdateCredentialDto.t :=
  {| UpdateCredentialDto.username := None;
     UpdateCredentialDto.password := Some pw;
     UpdateCredentialDto.email := None;
     UpdateCredentialDto.tmdb_key := None;
     UpdateCredentialDto.role := None |}.

(** The message of the exception [getUser] throws. *)
Definition not_found (user : User.t) : Thrown :=
  Http (NotFoundException
          ("User " ++ dquote ++ User.username user ++ dquote
           ++ " not found!")).

(** The table respects the unique index on username. *)
Definition unique_usernames (w : World) : Prop :=
  NoDup (map User.username (rows w)).

(** The sign-in a user performs with what they signed up with. *)
Definition credentials_of (dto : SignUpCredentialsDto.t)
  : SignInCredentialsDto.t :=
  {| SignInCredentialsDto.email := SignUpCredentialsDto.email dto;
     SignInCredentialsDto.password := SignUpCredentialsDto.password dto |}.

(** The refresh request that carries the five token fields of a user. *)
Definition refresh_of (u : User.t) : RefreshTokenDto.t :=
  {| RefreshTokenDto.id := User.id u;
     RefreshTokenDto.username := User.username u;
     RefreshTokenDto.email := User.email u;
     RefreshTokenDto.role := User.role u;
     RefreshTokenDto.tmdb_key := User.tmdb_key u |}.

(** The two exceptions the [catch] of [signUp] can throw. *)
Definition username_exists : Thrown :=
  Http (ConflictException "Username already exists").

Definition internal_error : Thrown := Http InternalServerErrorException.

(** One row of the table after [updateUser dto user]. *)
Definition updated_row (dto : UpdateCredentialDto.t) (user r : User.t)
  : User.t :=
  if has_id (User.id user) r then patch (update_literal dto) r else r.

(** ** Running the monad *)

Ltac run :=
  unfold signUp, signIn, refreshToken, checkEmail, updateUser, getUser,
    createToken, signUp_catch, genSalt, hash, compare, sign,
    userRepository_create, userRepository_save, userRepository_findOne,
    userRepository_update, try_catch, bind, ret, throw, tell, outcome,
    world;
  cbn [fst snd rows next_id save_fault salts_drawn calls journal draw_salt
       insert_row set_rows].

Lemma find_email_In (e : string) (l : list User.t) (u : User.t) :
  find (fun r => String.eqb (User.email r) e) l = Some u ->
  In u l /\ User.email u = e.
Proof.
  intro H. apply find_some in H. destruct H as [Hin Heq].
  split; [exact Hin | now apply String.eqb_eq].
Qed.

Lemma find_email_None (e : string) (l : list User.t) :
  find (fun r => String.eqb (User.email r) e) l = None ->
  forall r, In r l -> User.email r <> e.
Proof.
  intros H r Hin Heq.
  pose proof (find_none _ _ H r Hin) as Hf. cbv beta in Hf.
  rewrite Heq, String.eqb_refl in Hf. discriminate.
Qed.

Lemma find_unique_email (l : list User.t) (u : User.t) :
  NoDup (map User.email l) -> In u l ->
  find (fun r => String.eqb (User.email r) (User.email u)) l = Some u.
Proof.
  induction l as [|a l IH]; intros Hnd Hin; [contradiction|].
  cbn [map] in Hnd. inversion Hnd as [|x xs Hnotin Hnd']; subst.
  cbn [find]. destruct Hin as [->|Hin].
  - now rewrite String.eqb_refl.
  - destruct (String.eqb_spec (User.email a) (User.email u)) as [Heq|Hne].
    + exfalso. apply Hnotin. rewrite Heq. now apply in_map.
    + now apply IH.
Qed.

Lemma signIn_run (dto : SignInCredentialsDto.t) (w : World) :
  outcome (signIn dto w) =
  match find (fun r => String.eqb (User.email r)
                         (SignInCredentialsDto.email dto)) (rows w) with
  | Some u =>
      if bcrypt_compare (SignInCredentialsDto.password dto) (User.password u)
      then Return {| accessToken := jwtService_sign (payload_of u) |}
      else Throw unauthorized
  | None => Throw unauthorized
  end.
Proof.
  run. unfold row_matches.
  destruct (find _ (rows w)) as [u|]; [|reflexivity].
  cbn. now destruct (bcrypt_compare _ _).
Qed.

(** C1.  On a table with unique e-mails: if a row carries the e-mail and
    the password verifies against that row's hash, [signIn] resolves to a
    token (the one signed for that row); if there is no such row, because
    the e-mail is unknown or because the hash does not match, it rejects
    with [unauthorized].  Whenever [signIn] rejects, it rejects with that
    one error, so the two causes cannot be told apart. *)
Theorem signIn_token_or_unauthorized
  (dto : SignInCredentialsDto.t) (w : World) :
  unique_emails w ->
  let email := SignInCredentialsDto.email dto in
  let password := SignInCredentialsDto.password dto in
  (forall u, In u (rows w) -> User.email u = email ->
             bcrypt_compare password (User.password u) = true ->
             outcome (signIn dto w)
             = Return {| accessToken := jwtService_sign (payload_of u) |})
  /\ (~ registered email w -> outcome (signIn dto w) = Throw unauthorized)
  /\ (forall u, In u (rows w) -> User.email u = email ->
                bcrypt_compare password (User.password u) = false ->
                outcome (signIn dto w) = Throw unauthorized)
  /\ (forall e, outcome (signIn dto w) = Throw e -> e = unauthorized).
Proof.
  intros Huniq email password. rewrite signIn_run. fold email password.
  repeat split.
  - intros u Hin Hmail Hok.
    rewrite <- Hmail, (find_unique_email (rows w) u Huniq Hin).
    now rewrite Hok.
  - intros Habsent.
    destruct (find _ (rows w)) as [u|] eqn:Hf; [|reflexivity].
    exfalso. apply Habsent. exists u. now apply find_email_In.
  - intros u Hin Hmail Hbad.
    rewrite <- Hmail, (find_unique_email (rows w) u Huniq Hin).
    now rewrite Hbad.
  - intros e. destruct (find _ (rows w)) as [u|].
    + destruct (bcrypt_compare _ _); [discriminate|]. now intros [= <-].
    + now intros [= <-].
Qed.

(** The world [signUp] leaves behind its five collaborator calls, before
    the insert (if any) lands. *)
Lemma signUp_run (dto : SignUpCredentialsDto.t) (w : World) :
  let u := new_user dto w in
  let password := SignUpCredentialsDto.password dto in
  let salt := bcrypt_genSalt (salts_drawn w) in
  let w5 :=
    journal (call_save u)
      (journal (call_sign (payload_of u))
         (journal (call_create u)
            (journal (call_hash password salt)
               (journal call_genSalt (draw_salt w))))) in
  signUp dto w =
  match save_rejection u w with
  | Some e =>
      (Throw (Http (if js_strict_eq (code e) (JsString "11000")
                    then ConflictException "Username already exists"
                    else InternalServerErrorException)), w5)
  | None =>
      (Return {| accessToken := jwtService_sign (payload_of u) |},
       insert_row (with_id (next_id w) u) w5)
  end.
Proof.
  run. unfold save_rejection, new_user. cbn [rows save_fault journal draw_salt].
  destruct (save_fault w) as [e|].
  - cbn. now destruct (js_strict_eq (code e) (JsString "11000")).
  - destruct (existsb _ (rows w)); cbn; [|reflexivity].
    now destruct (js_strict_eq duplicate_key_code (JsString "11000")).
Qed.

Lemma existsb_unique_index_false (u : User.t) (l : list User.t) :
  (forall r, In r l ->
             User.username r <> User.username u
             /\ User.email r <> User.email u) ->
  existsb (breaks_unique_index u) l = false.
Proof.
  intro H. induction l as [|a l IH]; [reflexivity|].
  cbn [existsb]. rewrite IH by (intros r Hr; apply H; now right).
  destruct (H a (or_introl eq_refl)) as [Hu He].
  unfold breaks_unique_index.
  apply String.eqb_neq in Hu. apply String.eqb_neq in He.
  now rewrite Hu, He.
Qed.

Lemma new_user_role (dto : SignUpCredentialsDto.t) (w : World) :
  valid_role (SignUpCredentialsDto.role dto) ->
  User.role (new_user dto w)
  = Some (or_else (SignUpCredentialsDto.role dto) UserRole_USER).
Proof.
  unfold new_user, valid_role, truthy. cbn [User.role].
  destruct (SignUpCredentialsDto.role dto) as [k|]; [|reflexivity].
  intros [Hne Hk]. apply String.eqb_neq in Hne. now rewrite Hne, Hk.
Qed.

(** C2.  A sign-up whose role is valid, whose username and e-mail no row
    holds yet, and which meets a working connection, resolves to a token.
    The payload signed into it, which any decoder inverting the signer
    recovers, carries the username and the e-mail of the input and its
    role, or USER when the input has no role. *)
Theorem signUp_token_payload (dto : SignUpCredentialsDto.t) (w : World) :
  valid_role (SignUpCredentialsDto.role dto) ->
  (forall r, In r (rows w) ->
             User.username r <> SignUpCredentialsDto.username dto
             /\ User.email r <> SignUpCredentialsDto.email dto) ->
  save_fault w = None ->
  exists p,
    outcome (signUp dto w) = Return {| accessToken := jwtService_sign p |}
    /\ JwtPayload.username p = SignUpCredentialsDto.username dto
    /\ JwtPayload.email p = SignUpCredentialsDto.email dto
    /\ JwtPayload.role p
       = Some (or_else (SignUpCredentialsDto.role dto) UserRole_USER)
    /\ (forall decode, inverts_sign decode ->
          forall r, outcome (signUp dto w) = Return r ->
                    decode (accessToken r) = Some p).
Proof.
  intros Hrole Hfresh Hup.
  exists (payload_of (new_user dto w)).
  assert (Hrun : outcome (signUp dto w)
                 = Return {| accessToken :=
                     jwtService_sign (payload_of (new_user dto w)) |}).
  { rewrite signUp_run. unfold save_rejection. rewrite Hup.
    now rewrite (existsb_unique_index_false (new_user dto w) (rows w) Hfresh). }
  split; [exact Hrun|]. split; [reflexivity|]. split; [reflexivity|].
  split.
  - cbn [payload_of JwtPayload.role]. now apply new_user_role.
  - intros decode Hdec r Hr. rewrite Hrun in Hr.
    injection Hr as <-. apply Hdec.
Qed.

Lemma js_strict_eq_true (a b : JsValue) :
  js_strict_eq a b = true <-> a = b.
Proof.
  destruct a as [|x|x], b as [|y|y]; cbn; split; intro H;
    try discriminate; try reflexivity.
  - apply Z.eqb_eq in H. now subst.
  - injection H as ->. apply Z.eqb_refl.
  - apply String.eqb_eq in H. now subst.
  - injection H as ->. apply String.eqb_refl.
Qed.

Lemma js_strict_eq_false (a b : JsValue) :
  a <> b -> js_strict_eq a b = false.
Proof.
  intro H. destruct (js_strict_eq a b) eqn:E; [|reflexivity].
  now apply js_strict_eq_true in E.
Qed.

(** What a resolved [signUp] leaves in the table and on the connection. *)
Lemma signUp_resolved (dto : SignUpCredentialsDto.t) (w w1 : World)
  (r : TokenResponse) :
  signUp dto w = (Return r, w1) ->
  r = {| accessToken := jwtService_sign (payload_of (new_user dto w)) |}
  /\ rows w1 = rows w ++ [with_id (next_id w) (new_user dto w)]
  /\ save_fault w1 = save_fault w
  /\ save_fault w = None.
Proof.
  rewrite signUp_run.
  destruct (save_rejection (new_user dto w) w) as [e|] eqn:Hrej;
    [discriminate|].
  intros [= <- <-]. repeat split.
  unfold save_rejection in Hrej. now destruct (save_fault w).
Qed.

(** What the [catch] of [signUp] would do with a driver that marked a
    broken unique index with the string ['11000'], the value line 55 looks
    for: a rejected save whose error carries that code ends in Conflict,
    any other in the Internal error.  Neither store the source's comment
    names reports that string; the sign-up is run against the codes they
    do report further down. *)
Theorem signUp_conflict_or_internal
  (dto : SignUpCredentialsDto.t) (w : World) :
  duplicate_key_code = JsString "11000" ->
  let conflict := Throw (Http (ConflictException "Username already exists")) in
  (forall e, save_rejection (new_user dto w) w = Some e ->
     (code e = duplicate_key_code -> outcome (signUp dto w) = conflict)
     /\ (code e <> duplicate_key_code ->
         outcome (signUp dto w) = Throw (Http InternalServerErrorException)))
  /\ (save_fault w = None ->
      (exists r, In r (rows w)
                 /\ (User.username r = SignUpCredentialsDto.username dto
                     \/ User.email r = SignUpCredentialsDto.email dto)) ->
      outcome (signUp dto w) = conflict)
  /\ (forall first r0 w0,
        signUp first w0 = (Return r0, w) ->
        SignUpCredentialsDto.email first = SignUpCredentialsDto.email dto ->
        outcome (signUp dto w) = conflict).
Proof.
  intros Hdup conflict.
  assert (Hrows : save_fault w = None ->
            (exists r, In r (rows w)
                 /\ (User.username r = SignUpCredentialsDto.username dto
                     \/ User.email r = SignUpCredentialsDto.email dto)) ->
            outcome (signUp dto w) = conflict).
  { intros Hup (r & Hin & Hsame). rewrite signUp_run.
    unfold save_rejection. rewrite Hup.
    replace (existsb (breaks_unique_index (new_user dto w)) (rows w))
      with true.
    - cbn. rewrite Hdup. reflexivity.
    - symmetry. apply existsb_exists. exists r. split; [exact Hin|].
      unfold breaks_unique_index, new_user. cbn [User.username User.email].
      apply orb_true_iff.
      destruct Hsame as [H|H]; [left|right]; rewrite H;
        apply String.eqb_refl. }
  split; [|split; [exact Hrows|]].
  - intros e Hrej. rewrite signUp_run, Hrej. cbn [outcome fst].
    split; intro Hcode.
    + rewrite Hcode, Hdup. reflexivity.
    + rewrite js_strict_eq_false; [reflexivity|]. now rewrite <- Hdup.
  - intros first r0 w0 Hfirst Hmail.
    destruct (signUp_resolved first w0 w r0 Hfirst)
      as (_ & Hrows1 & Hf1 & Hf0).
    apply Hrows; [congruence|].
    exists (with_id (next_id w0) (new_user first w0)). split.
    + rewrite Hrows1. apply in_or_app. right. now left.
    + right. exact Hmail.
Qed.

Lemma journal_five (l : list Call) (a b c d e : Call) :
  ((((l ++ [a]) ++ [b]) ++ [c]) ++ [d]) ++ [e] = l ++ [a; b; c; d; e].
Proof. now repeat rewrite <- app_assoc. Qed.

(** C4.  [signUp] calls its collaborators in this order: draw a salt, hash
    the password with it, create the entity from the hash and the role,
    sign the token, save the entity.  The payload handed to the signer is
    made of the entity's fields as they are before the save: no identity,
    the username, e-mail and api key of the input, and the role computed
    from it.  When the sign-up resolves, the token is the one signed for
    that payload, while the row the save stored carries the identity the
    save assigned. *)
Theorem signUp_signs_before_saving
  (dto : SignUpCredentialsDto.t) (w : World) :
  let username := SignUpCredentialsDto.username dto in
  let password := SignUpCredentialsDto.password dto in
  let email := SignUpCredentialsDto.email dto in
  let tmdb_key := SignUpCredentialsDto.tmdb_key dto in
  let salt := bcrypt_genSalt (salts_drawn w) in
  let hashedPassword := bcrypt_hash password salt in
  let role :=
    if truthy (SignUpCredentialsDto.role dto)
    then match SignUpCredentialsDto.role dto with
         | Some k => UserRole_index k
         | None => None
         end
    else Some UserRole_USER in
  let user := User.Build None username hashedPassword email tmdb_key role in
  let payload :=
    {| JwtPayload.id := None;
       JwtPayload.username := username;
       JwtPayload.email := email;
       JwtPayload.role := role;
       JwtPayload.tmdb_key := tmdb_key |} in
  calls (world (signUp dto w))
  = calls w ++ [call_genSalt; call_hash password salt; call_create user;
                call_sign payload; call_save user]
  /\ (forall r, outcome (signUp dto w) = Return r ->
        accessToken r = jwtService_sign payload
        /\ rows (world (signUp dto w))
           = rows w ++ [User.Build (Some (next_id w)) username
                          hashedPassword email tmdb_key role]).
Proof.
  intros username password email tmdb_key salt hashedPassword role user
    payload.
  rewrite signUp_run.
  change (new_user dto w) with user. change (payload_of user) with payload.
  split.
  - destruct (save_rejection user w); unfold world;
      cbn [snd calls journal draw_salt insert_row]; apply journal_five.
  - intros r. destruct (save_rejection user w); unfold outcome, world;
      cbn [fst snd]; [discriminate|].
    intros [= <-]. now split.
Qed.

Lemma has_id_other (criteria : option nat) (r : User.t) :
  User.id r <> criteria -> has_id criteria r = false.
Proof.
  unfold has_id. destruct criteria as [i|], (User.id r) as [j|];
    try reflexivity.
  intro H. apply Nat.eqb_neq. intros ->. now apply H.
Qed.

Lemma has_id_same (i : nat) (r : User.t) :
  User.id r = Some i -> has_id (Some i) r = true.
Proof. unfold has_id. intros ->. apply Nat.eqb_refl. Qed.

Lemma existsb_all_false {A : Type} (f : A -> bool) (l : list A) :
  (forall x, In x l -> f x = false) -> existsb f l = false.
Proof.
  induction l as [|a l IH]; intro H; cbn; [reflexivity|].
  rewrite (H a (or_introl eq_refl)). apply IH. intros x Hx. apply H.
  now right.
Qed.

Lemma updateUser_run (dto : UpdateCredentialDto.t) (user : User.t)
  (w : World) :
  updateUser dto user w =
  match update_rejection (User.id user) (update_literal dto) w with
  | Some e =>
      (Throw (FromDriver e),
       journal (call_update (User.id user) (update_literal dto)) w)
  | None =>
      (Return {| accessToken := jwtService_sign (payload_of user) |},
       journal (call_sign (payload_of user))
         (set_rows
            (map (fun r => if has_id (User.id user) r
                           then patch (update_literal dto) r else r)
                 (rows w))
            (journal (call_update (User.id user) (update_literal dto)) w)))
  end.
Proof.
  run. unfold update_rejection. cbn [rows journal].
  now destruct (existsb _ (rows w)).
Qed.

(** An update that names neither a username nor an e-mail is taken. *)
Lemma update_rejection_no_unique_column (criteria : option nat)
  (p : PartialUser.t) (w : World) :
  PartialUser.username p = None -> PartialUser.email p = None ->
  update_rejection criteria p w = None.
Proof.
  intros Hu He. unfold update_rejection. rewrite Hu, He.
  rewrite existsb_all_false; [reflexivity|].
  intros r _. cbn. apply andb_false_r.
Qed.

(** An update that selects no row is taken. *)
Lemma update_rejection_no_row (criteria : option nat) (p : PartialUser.t)
  (w : World) :
  (forall r, In r (rows w) -> has_id criteria r = false) ->
  update_rejection criteria p w = None.
Proof.
  intro H. unfold update_rejection.
  rewrite existsb_all_false; [reflexivity|].
  intros r Hr. now rewrite (H r Hr).
Qed.


Lemma checkEmail_run (dto : CheckEmailDto.t) (w : World) :
  checkEmail dto w =
  (Return (match find (fun r => String.eqb (User.email r)
                                  (CheckEmailDto.email dto)) (rows w) with
           | Some _ => true
           | None => false
           end),
   journal (call_findOne (where_email (CheckEmailDto.email dto))) w).
Proof. reflexivity. Qed.

(** C6.  [checkEmail] resolves to true exactly when a row of the table
    carries the e-mail.  It changes nothing in the world but the journal,
    which gains the one lookup.  So it answers true right after a resolved
    sign-up with that e-mail, and false for an e-mail no row carries. *)
Theorem checkEmail_iff_registered (dto : CheckEmailDto.t) (w : World) :
  let email := CheckEmailDto.email dto in
  (exists b, outcome (checkEmail dto w) = Return b
             /\ (b = true <-> registered email w))
  /\ world (checkEmail dto w) = journal (call_findOne (where_email email)) w
  /\ rows (world (checkEmail dto w)) = rows w
  /\ (forall first r0 w0,
        signUp first w0 = (Return r0, w) ->
        SignUpCredentialsDto.email first = email ->
        outcome (checkEmail dto w) = Return true)
  /\ (~ registered email w -> outcome (checkEmail dto w) = Return false).
Proof.
  intro email. rewrite checkEmail_run. fold email. unfold outcome, world.
  cbn [fst snd].
  assert (Hreg : registered email w ->
            exists u, find (fun r => String.eqb (User.email r) email)
                        (rows w) = Some u).
  { intros (u & Hin & He).
    destruct (find _ (rows w)) as [u'|] eqn:Hf; [now exists u'|].
    exfalso. exact (find_email_None email (rows w) Hf u Hin He). }
  split; [|split; [reflexivity|split; [reflexivity|split]]].
  - eexists. split; [reflexivity|].
    destruct (find _ (rows w)) as [u|] eqn:Hf; split; intro H.
    + exists u. now apply find_email_In.
    + reflexivity.
    + discriminate.
    + destruct (Hreg H) as [u Hu]. discriminate.
  - intros first r0 w0 Hfirst Hmail.
    destruct (signUp_resolved first w0 w r0 Hfirst) as (_ & Hrows & _).
    destruct Hreg as [u ->]; [|reflexivity].
    exists (with_id (next_id w0) (new_user first w0)). split.
    + rewrite Hrows. apply in_or_app. right. now left.
    + exact Hmail.
  - intro Hno. destruct (find _ (rows w)) as [u|] eqn:Hf; [|reflexivity].
    exfalso. apply Hno. exists u. now apply find_email_In.
Qed.

(** The payload [refreshToken] signs: the five properties of its input. *)
Lemma payload_of_as_User (d : RefreshTokenDto.t) :
  payload_of (as_User d)
  = {| JwtPayload.id := RefreshTokenDto.id d;
       JwtPayload.username := RefreshTokenDto.username d;
       JwtPayload.email := RefreshTokenDto.email d;
       JwtPayload.role := RefreshTokenDto.role d;
       JwtPayload.tmdb_key := RefreshTokenDto.tmdb_key d |}.
Proof. reflexivity. Qed.

(** C7.  [refreshToken] resolves, for every input and in every world, to
    the token signed for the five properties of its input.  It never
    rejects; its only collaborator call is the signing, so the table is
    neither read nor written, no password is compared, and the answer is
    the same whatever the table holds. *)
Theorem refreshToken_signs_its_input (dto : RefreshTokenDto.t) (w : World) :
  let p := {| JwtPayload.id := RefreshTokenDto.id dto;
              JwtPayload.username := RefreshTokenDto.username dto;
              JwtPayload.email := RefreshTokenDto.email dto;
              JwtPayload.role := RefreshTokenDto.role dto;
              JwtPayload.tmdb_key := RefreshTokenDto.tmdb_key dto |} in
  outcome (refreshToken dto w)
  = Return {| accessToken := jwtService_sign p |}
  /\ (forall e, outcome (refreshToken dto w) <> Throw e)
  /\ calls (world (refreshToken dto w)) = calls w ++ [call_sign p]
  /\ rows (world (refreshToken dto w)) = rows w
  /\ (forall w2, outcome (refreshToken dto w2) = outcome (refreshToken dto w)).
Proof.
  intro p. repeat split. intros e H. discriminate H.
Qed.

Lemma createToken_run (user : User.t) (w : World) :
  createToken user w
  = (Return (jwtService_sign (payload_of user)),
     journal (call_sign (payload_of user)) w).
Proof. reflexivity. Qed.

(** [createToken] does not look at the password of the user it is given. *)
Lemma createToken_password_blind (u : User.t) (pw : string) :
  createToken
    (User.Build (User.id u) (User.username u) pw (User.email u)
                (User.tmdb_key u) (User.role u))
  = createToken u.
Proof. reflexivity. Qed.

(** C8.  [createToken] signs the payload made of the id, username, e-mail,
    role and api key of its user, and nothing else of that user: two users
    that agree on the five properties get the same token, whatever their
    passwords.  Each token [signUp], [signIn], [refreshToken] and
    [updateUser] resolve to is signed for such a payload, written here
    without any password or hash. *)
Theorem tokens_carry_the_five_fields :
  (forall user w,
     createToken user w
     = (Return (jwtService_sign
                  {| JwtPayload.id := User.id user;
                     JwtPayload.username := User.username user;
                     JwtPayload.email := User.email user;
                     JwtPayload.role := User.role user;
                     JwtPayload.tmdb_key := User.tmdb_key user |}),
        journal (call_sign (payload_of user)) w))
  /\ (forall u1 u2,
        User.id u1 = User.id u2 -> User.username u1 = User.username u2 ->
        User.email u1 = User.email u2 -> User.role u1 = User.role u2 ->
        User.tmdb_key u1 = User.tmdb_key u2 ->
        createToken u1 = createToken u2)
  /\ (forall dto w r,
        outcome (signUp dto w) = Return r ->
        accessToken r
        = jwtService_sign
            {| JwtPayload.id := None;
               JwtPayload.username := SignUpCredentialsDto.username dto;
               JwtPayload.email := SignUpCredentialsDto.email dto;
               JwtPayload.role := User.role (new_user dto w);
               JwtPayload.tmdb_key := SignUpCredentialsDto.tmdb_key dto |})
  /\ (forall dto w r,
        outcome (signIn dto w) = Return r ->
        exists u, In u (rows w)
          /\ accessToken r
             = jwtService_sign
                 {| JwtPayload.id := User.id u;
                    JwtPayload.username := User.username u;
                    JwtPayload.email := User.email u;
                    JwtPayload.role := User.role u;
                    JwtPayload.tmdb_key := User.tmdb_key u |})
  /\ (forall dto w r,
        outcome (refreshToken dto w) = Return r ->
        accessToken r
        = jwtService_sign
            {| JwtPayload.id := RefreshTokenDto.id dto;
               JwtPayload.username := RefreshTokenDto.username dto;
               JwtPayload.email := RefreshTokenDto.email dto;
               JwtPayload.role := RefreshTokenDto.role dto;
               JwtPayload.tmdb_key := RefreshTokenDto.tmdb_key dto |})
  /\ (forall dto user w r,
        outcome (updateUser dto user w) = Return r ->
        accessToken r
        = jwtService_sign
            {| JwtPayload.id := User.id user;
               JwtPayload.username := User.username user;
               JwtPayload.email := User.email user;
               JwtPayload.role := User.role user;
               JwtPayload.tmdb_key := User.tmdb_key user |}).
Proof.
  split; [reflexivity|]. split.
  { intros u1 u2 Hi Hu He Hr Hk. unfold createToken, payload_of.
    now rewrite Hi, Hu, He, Hr, Hk. }
  split.
  { intros dto w r. rewrite signUp_run.
    destruct (save_rejection (new_user dto w) w); unfold outcome;
      cbn [fst]; [discriminate|].
    now intros [= <-]. }
  split.
  { intros dto w r. rewrite signIn_run.
    destruct (find _ (rows w)) as [u|] eqn:Hf; [|discriminate].
    destruct (bcrypt_compare _ _); [|discriminate].
    intros [= <-]. exists u. split; [|reflexivity].
    now apply find_email_In in Hf. }
  split.
  { intros dto w r. unfold outcome. cbn. now intros [= <-]. }
  intros dto user w r. rewrite updateUser_run.
  destruct (update_rejection _ _ w); unfold outcome; cbn [fst];
    [discriminate|].
  now intros [= <-].
Qed.

(** A resolved [signUp] adds a row whose password is the hasher's output,
    and keeps the rows that were there. *)
Lemma signUp_keeps_passwords_hashed (dto : SignUpCredentialsDto.t)
  (w : World) :
  passwords_hashed w -> passwords_hashed (world (signUp dto w)).
Proof.
  unfold passwords_hashed. intro H. rewrite signUp_run.
  destruct (save_rejection (new_user dto w) w); unfold world;
    cbn [snd rows journal draw_salt insert_row]; [exact H|].
  apply Forall_app. split; [exact H|]. constructor; [|constructor].
  cbn. eexists. eexists. reflexivity.
Qed.

(** The methods that only read the table, or do not touch it, keep it. *)
Lemma readers_keep_the_table (w : World) :
  (forall dto, rows (world (signIn dto w)) = rows w)
  /\ (forall dto, rows (world (refreshToken dto w)) = rows w)
  /\ (forall dto, rows (world (checkEmail dto w)) = rows w)
  /\ (forall user, rows (world (getUser user w)) = rows w).
Proof.
  repeat split.
  - intro dto. run. destruct (find _ (rows w)); [|reflexivity].
    cbn. now destruct (bcrypt_compare _ _).
  - intro user. run. now destruct (find _ (rows w)).
Qed.

(** An update that defines no password keeps the stored hashes. *)
Lemma updateUser_without_password_keeps_hashes
  (dto : UpdateCredentialDto.t) (user : User.t) (w : World) :
  UpdateCredentialDto.password dto = None ->
  passwords_hashed w -> passwords_hashed (world (updateUser dto user w)).
Proof.
  unfold passwords_hashed. intros Hpw H. rewrite updateUser_run.
  destruct (update_rejection _ _ w); unfold world;
    cbn [snd rows journal set_rows]; [exact H|].
  apply Forall_map. revert H. apply Forall_impl. intros r Hr.
  destruct (has_id (User.id user) r); [|exact Hr].
  unfold patch, update_literal. cbn. now rewrite Hpw.
Qed.

(** An update that defines a password writes it into the row as it came:
    the hasher is not called, and what the row stores is the string the
    caller sent. *)
Lemma updateUser_writes_password_verbatim
  (pw : string) (user r : User.t) (i : nat) (w : World) :
  User.id user = Some i -> User.id r = Some i -> In r (rows w) ->
  let w' := world (updateUser (new_password_only pw) user w) in
  (exists r', In r' (rows w') /\ User.id r' = Some i
              /\ User.password r' = pw)
  /\ calls w'
     = calls w ++ [call_update (Some i) (update_literal (new_password_only pw));
                   call_sign (payload_of user)].
Proof.
  intros Hu Hr Hin w'. subst w'. rewrite updateUser_run.
  rewrite update_rejection_no_unique_column by reflexivity. unfold world.
  cbn [snd rows calls journal set_rows]. split.
  - exists (patch (update_literal (new_password_only pw)) r).
    split; [|split; [exact Hr|reflexivity]].
    apply in_map_iff. exists r. split; [|exact Hin].
    now rewrite Hu, (has_id_same i r Hr).
  - rewrite Hu, <- app_assoc. reflexivity.
Qed.

(** C9, at the input that breaks it.  Alice's row holds the hash of her
    sign-up password.  An update of that row with the password
    ["hunter2"] leaves exactly that string in the password column; the
    journal shows the update and the signing and no call to the hasher. *)
Theorem updateUser_stores_plaintext_password :
  let dto := new_password_only "hunter2" in
  let w' := world (updateUser dto Demo.alice_row Demo.with_alice) in
  rows Demo.with_alice
  = [User.Build (Some 0) "alice"
       (Demo.hash "p@ss1234" (Demo.genSalt 0)) "a@x.com" "k1" (Some "USER")]
  /\ rows w'
     = [User.Build (Some 0) "alice" "hunter2" "a@x.com" "k1" (Some "USER")]
  /\ calls w'
     = [call_update (Some 0) (update_literal dto);
        call_sign (payload_of Demo.alice_row)].
Proof. repeat split. Qed.

(** C10.  [getUser] looks its argument up in the table.  When the lookup
    finds no row it rejects with NotFound; when it finds one, whichever row
    that is, it resolves to the argument itself.  The table is left as it
    was. *)
Theorem getUser_returns_its_argument (user : User.t) (w : World) :
  let found := find (where_user_matches user) (rows w) in
  ((found = None /\ outcome (getUser user w) = Throw (not_found user))
   \/ (exists r, found = Some r /\ outcome (getUser user w) = Return user))
  /\ (forall r, found = Some r -> outcome (getUser user w) = Return user)
  /\ rows (world (getUser user w)) = rows w.
Proof.
  intro found. subst found. run. unfold row_matches.
  destruct (find (where_user_matches user) (rows w)) as [r|].
  - split; [right; now exists r|]. split; reflexivity.
  - split; [left; now split|]. split; [discriminate|reflexivity].
Qed.

(** ** Further properties of the service *)

Lemma find_app_none {A : Type} (f : A -> bool) (l1 l2 : list A) :
  find f l1 = None -> find f (l1 ++ l2) = find f l2.
Proof.
  induction l1 as [|a l1 IH]; cbn; [reflexivity|].
  destruct (f a); [discriminate|exact IH].
Qed.

Lemma find_all_false {A : Type} (f : A -> bool) (l : list A) :
  (forall x, In x l -> f x = false) -> find f l = None.
Proof.
  induction l as [|a l IH]; intro H; cbn; [reflexivity|].
  rewrite (H a (or_introl eq_refl)). apply IH. intros x Hx. apply H.
  now right.
Qed.

Lemma existsb_false_In {A : Type} (f : A -> bool) (l : list A) (x : A) :
  existsb f l = false -> In x l -> f x = false.
Proof.
  intros H Hin. destruct (f x) eqn:E; [|reflexivity].
  rewrite <- H. symmetry. apply existsb_exists. now exists x.
Qed.

Lemma NoDup_snoc {A : Type} (l : list A) (x : A) :
  NoDup l -> ~ In x l -> NoDup (l ++ [x]).
Proof.
  induction l as [|a l IH]; intros Hnd Hx; cbn.
  - constructor; [intros []|constructor].
  - inversion Hnd as [|a' l' Ha Hl]; subst. constructor.
    + intro Hin. apply in_app_or in Hin. destruct Hin as [Hin|[->|[]]].
      * now apply Ha.
      * apply Hx. now left.
    + apply IH; [exact Hl|]. intro Hin. apply Hx. now right.
Qed.

Lemma NoDup_map_inj {A B : Type} (f : A -> B) (l : list A) (x y : A) :
  NoDup (map f l) -> In x l -> In y l -> f x = f y -> x = y.
Proof.
  induction l as [|a l IH]; intros Hnd Hx Hy Hf; [contradiction|].
  cbn [map] in Hnd. inversion Hnd as [|b bs Ha Hl]; subst.
  destruct Hx as [->|Hx], Hy as [->|Hy].
  - reflexivity.
  - exfalso. apply Ha. rewrite Hf. now apply in_map.
  - exfalso. apply Ha. rewrite <- Hf. now apply in_map.
  - now apply IH.
Qed.

(** A resolved [signUp] found no row with its username or its e-mail. *)
Lemma signUp_resolved_fresh (dto : SignUpCredentialsDto.t) (w w1 : World)
  (r : TokenResponse) :
  signUp dto w = (Return r, w1) ->
  (forall x, In x (rows w) ->
     User.username x <> SignUpCredentialsDto.username dto
     /\ User.email x <> SignUpCredentialsDto.email dto)
  /\ next_id w1 = S (next_id w).
Proof.
  rewrite signUp_run. unfold save_rejection.
  destruct (save_fault w); [discriminate|].
  destruct (existsb _ (rows w)) eqn:E; [discriminate|].
  intros [= <- <-]. split; [|reflexivity].
  intros x Hx. pose proof (existsb_false_In _ _ x E Hx) as Hb.
  unfold breaks_unique_index, new_user in Hb.
  cbn [User.username User.email] in Hb.
  apply orb_false_iff in Hb. destruct Hb as [Hu He].
  split; now apply String.eqb_neq.
Qed.

(** X1.  Sign-up then sign-in.  After a resolved [signUp], and with a
    hasher whose [compare] accepts the password against the hash it made
    of it, [signIn] with the same e-mail and password resolves.  Its token
    is signed for the stored row, so it carries the identity [save]
    assigned, which the token of the sign-up itself lacked; a password the
    hasher refuses against that hash is rejected. *)
Theorem signIn_after_signUp
  (dto : SignUpCredentialsDto.t) (w w1 : World) (r0 : TokenResponse) :
  signUp dto w = (Return r0, w1) ->
  bcrypt_compare (SignUpCredentialsDto.password dto)
    (bcrypt_hash (SignUpCredentialsDto.password dto)
       (bcrypt_genSalt (salts_drawn w))) = true ->
  let row := with_id (next_id w) (new_user dto w) in
  outcome (signIn (credentials_of dto) w1)
  = Return {| accessToken := jwtService_sign (payload_of row) |}
  /\ accessToken r0 = jwtService_sign (payload_of (new_user dto w))
  /\ JwtPayload.id (payload_of row) = Some (next_id w)
  /\ JwtPayload.id (payload_of (new_user dto w)) = None
  /\ (forall pw,
        bcrypt_compare pw (User.password row) = false ->
        outcome (signIn
                   {| SignInCredentialsDto.email :=
                        SignUpCredentialsDto.email dto;
                      SignInCredentialsDto.password := pw |} w1)
        = Throw unauthorized).
Proof.
  intros Hrun Hok row.
  destruct (signUp_resolved dto w w1 r0 Hrun) as (Hr0 & Hrows & _).
  destruct (signUp_resolved_fresh dto w w1 r0 Hrun) as (Hfresh & _).
  assert (Hfind : find (fun x => String.eqb (User.email x)
                                   (SignUpCredentialsDto.email dto))
                    (rows w1) = Some row).
  { rewrite Hrows, find_app_none.
    - cbn. now rewrite String.eqb_refl.
    - apply find_all_false. intros x Hx. apply String.eqb_neq.
      now apply Hfresh. }
  split.
  { rewrite signIn_run. cbn [credentials_of SignInCredentialsDto.email
                              SignInCredentialsDto.password].
    rewrite Hfind. cbn [row with_id new_user User.password].
    now rewrite Hok. }
  split; [now rewrite Hr0|]. split; [reflexivity|]. split; [reflexivity|].
  intros pw Hbad. rewrite signIn_run.
  cbn [SignInCredentialsDto.email SignInCredentialsDto.password].
  rewrite Hfind. now rewrite Hbad.
Qed.

(** X2.  A rejected [signUp] throws one of the two exceptions of its
    [catch], never the driver's own error.  It leaves the table and the
    next identity as they were, although the token had been signed by
    then. *)
Theorem signUp_rejected_stores_nothing
  (dto : SignUpCredentialsDto.t) (w : World) (e : Thrown) :
  outcome (signUp dto w) = Throw e ->
  (e = username_exists \/ e = internal_error)
  /\ rows (world (signUp dto w)) = rows w
  /\ next_id (world (signUp dto w)) = next_id w
  /\ In (call_sign (payload_of (new_user dto w)))
        (calls (world (signUp dto w)))
  /\ save_rejection (new_user dto w) w <> None.
Proof.
  rewrite signUp_run.
  destruct (save_rejection (new_user dto w) w) as [d|]; unfold outcome, world;
    cbn [fst snd]; [|discriminate].
  intros [= <-]. split.
  { destruct (js_strict_eq (code d) (JsString "11000")); [now left|now right]. }
  split; [reflexivity|]. split; [reflexivity|]. split; [|discriminate].
  cbn [calls journal draw_salt]. apply in_or_app. left.
  apply in_or_app. right. now left.
Qed.

(** X3.  [signUp] keeps both unique indexes: on a table without repeated
    usernames and without repeated e-mails, the table it leaves, resolved
    or rejected, has none either. *)
Theorem signUp_keeps_unique_indexes
  (dto : SignUpCredentialsDto.t) (w : World) :
  unique_usernames w -> unique_emails w ->
  unique_usernames (world (signUp dto w))
  /\ unique_emails (world (signUp dto w)).
Proof.
  intros Hu He.
  destruct (signUp dto w) as [[r|e] w1] eqn:Hrun; unfold world; cbn [snd].
  - destruct (signUp_resolved dto w w1 r Hrun) as (_ & Hrows & _).
    destruct (signUp_resolved_fresh dto w w1 r Hrun) as (Hfresh & _).
    unfold unique_usernames, unique_emails. rewrite Hrows, !map_app.
    cbn [map with_id new_user User.username User.email].
    split; (apply NoDup_snoc; [assumption|]); intro Hin;
      apply in_map_iff in Hin; destruct Hin as (x & Hx & Hin);
      destruct (Hfresh x Hin) as [H1 H2]; contradiction.
  - assert (Hw : rows w1 = rows w).
    { pose proof (signUp_run dto w) as H. cbv zeta in H. rewrite Hrun in H.
      destruct (save_rejection (new_user dto w) w); [|discriminate].
      now injection H as _ ->. }
    unfold unique_usernames, unique_emails. rewrite Hw. now split.
Qed.

(** X4.  The role of a sign-up, at its edges.  An empty-string role counts
    as omitted: the row and the token get USER.  A non-empty role that is
    no key of the enumeration is not refused: the sign-up goes on with the
    role undefined, in the row it stores and in the token it signs. *)
Theorem signUp_role_edge_cases
  (dto : SignUpCredentialsDto.t) (w : World) (r : TokenResponse) :
  outcome (signUp dto w) = Return r ->
  let stored role :=
    rows (world (signUp dto w))
    = rows w ++ [User.Build (Some (next_id w))
                   (SignUpCredentialsDto.username dto)
                   (bcrypt_hash (SignUpCredentialsDto.password dto)
                      (bcrypt_genSalt (salts_drawn w)))
                   (SignUpCredentialsDto.email dto)
                   (SignUpCredentialsDto.tmdb_key dto) role] in
  let signed role :=
    accessToken r
    = jwtService_sign
        {| JwtPayload.id := None;
           JwtPayload.username := SignUpCredentialsDto.username dto;
           JwtPayload.email := SignUpCredentialsDto.email dto;
           JwtPayload.role := role;
           JwtPayload.tmdb_key := SignUpCredentialsDto.tmdb_key dto |} in
  (SignUpCredentialsDto.role dto = Some "" ->
     stored (Some UserRole_USER) /\ signed (Some UserRole_USER))
  /\ (forall k, SignUpCredentialsDto.role dto = Some k -> k <> "" ->
        UserRole_index k = None -> stored None /\ signed None).
Proof.
  intros Hrun stored signed. subst stored signed. cbv beta.
  revert Hrun. rewrite signUp_run.
  destruct (save_rejection (new_user dto w) w); unfold outcome, world;
    cbn [fst snd]; [discriminate|].
  intros [= <-]. cbn [rows journal draw_salt insert_row accessToken].
  unfold with_id, payload_of, new_user. cbn. split.
  - intros ->. cbn. now split.
  - intros k -> Hne Hk. unfold truthy. apply String.eqb_neq in Hne.
    rewrite Hne, Hk. cbn. now split.
Qed.

(** X5.  The [catch] of [signUp] compares with [===].  If the driver marks
    a broken unique index with any code other than the string ['11000'],
    the number 11000 included, a sign-up that repeats a username or an
    e-mail ends in the Internal error, not in Conflict. *)
Theorem signUp_duplicate_other_code_is_internal
  (dto : SignUpCredentialsDto.t) (w : World) :
  duplicate_key_code <> JsString "11000" ->
  save_fault w = None ->
  (exists r, In r (rows w)
             /\ (User.username r = SignUpCredentialsDto.username dto
                 \/ User.email r = SignUpCredentialsDto.email dto)) ->
  outcome (signUp dto w) = Throw internal_error.
Proof.
  intros Hcode Hup (r & Hin & Hsame). rewrite signUp_run.
  unfold save_rejection. rewrite Hup.
  replace (existsb (breaks_unique_index (new_user dto w)) (rows w)) with true.
  - cbn. now rewrite (js_strict_eq_false _ _ Hcode).
  - symmetry. apply existsb_exists. exists r. split; [exact Hin|].
    unfold breaks_unique_index, new_user. cbn [User.username User.email].
    apply orb_true_iff.
    destruct Hsame as [H|H]; [left|right]; rewrite H; apply String.eqb_refl.
Qed.

(** X6.  What [signIn] asks of its collaborators.  It always looks the
    e-mail up; it calls [bcrypt.compare] only when a row was found, and
    signs only when the comparison passed.  For an unknown e-mail the
    hasher is therefore never consulted.  Nothing else in the world
    changes. *)
Theorem signIn_collaborator_calls
  (dto : SignInCredentialsDto.t) (w : World) :
  let email := SignInCredentialsDto.email dto in
  let password := SignInCredentialsDto.password dto in
  let w' := world (signIn dto w) in
  calls w'
  = calls w
    ++ call_findOne (where_email email)
       :: match find (fun r => String.eqb (User.email r) email) (rows w) with
          | None => []
          | Some u =>
              call_compare password (User.password u)
              :: (if bcrypt_compare password (User.password u)
                  then [call_sign (payload_of u)]
                  else [])
          end
  /\ (~ registered email w ->
      calls w' = calls w ++ [call_findOne (where_email email)])
  /\ rows w' = rows w
  /\ next_id w' = next_id w
  /\ save_fault w' = save_fault w
  /\ salts_drawn w' = salts_drawn w.
Proof.
  intros email password w'. subst w'. run. unfold row_matches.
  fold email password.
  destruct (find _ (rows w)) as [u|] eqn:Hf.
  - cbn. destruct (bcrypt_compare password (User.password u)); cbn;
      repeat rewrite <- app_assoc; repeat split;
      intro Hno; exfalso; apply Hno; exists u; now apply find_email_In.
  - cbn. repeat split.
Qed.

Lemma map_unchanged {A : Type} (f : A -> A) (l : list A) :
  (forall x, In x l -> f x = x) -> map f l = l.
Proof.
  induction l as [|a l IH]; intro H; cbn; [reflexivity|].
  rewrite (H a (or_introl eq_refl)), IH; [reflexivity|].
  intros x Hx. apply H. now right.
Qed.

(** X7.  [updateUser] does not look at what the update matched.  When no
    row has the identity of [user], in particular when [user] has none, the
    table stays as it was and the call still resolves to a token. *)
Theorem updateUser_unknown_id_still_resolves
  (dto : UpdateCredentialDto.t) (user : User.t) (w : World) :
  (forall r, In r (rows w) -> User.id r <> User.id user) ->
  rows (world (updateUser dto user w)) = rows w
  /\ outcome (updateUser dto user w)
     = Return {| accessToken := jwtService_sign (payload_of user) |}.
Proof.
  intro Hno. rewrite updateUser_run.
  rewrite update_rejection_no_row
    by (intros r Hr; apply has_id_other; now apply Hno).
  unfold outcome, world.
  cbn [fst snd rows journal set_rows]. split; [|reflexivity].
  apply map_unchanged. intros r Hr. now rewrite has_id_other by now apply Hno.
Qed.

Lemma patch_keeps_id (p : PartialUser.t) (r : User.t) :
  User.id (patch p r) = User.id r.
Proof. reflexivity. Qed.

Lemma patch_idempotent (p : PartialUser.t) (r : User.t) :
  patch p (patch p r) = patch p r.
Proof.
  destruct p as [u pw e k ro]. unfold patch. cbn.
  destruct u, pw, e, k, ro; reflexivity.
Qed.

Lemma updated_row_idempotent (dto : UpdateCredentialDto.t) (user r : User.t) :
  updated_row dto user (updated_row dto user r) = updated_row dto user r.
Proof.
  unfold updated_row. destruct (has_id (User.id user) r) eqn:E.
  - unfold has_id in *. rewrite patch_keeps_id, E. apply patch_idempotent.
  - now rewrite E.
Qed.

(** What an accepted update leaves, and what [updateUser] then answers. *)
Lemma updateUser_accepted (dto : UpdateCredentialDto.t) (user : User.t)
  (w : World) :
  update_rejection (User.id user) (update_literal dto) w = None ->
  rows (world (updateUser dto user w)) = map (updated_row dto user) (rows w)
  /\ outcome (updateUser dto user w)
     = Return {| accessToken := jwtService_sign (payload_of user) |}.
Proof. intro H. rewrite updateUser_run, H. now split. Qed.

(** [updateUser] resolves only when the store took the update. *)
Lemma updateUser_resolved (dto : UpdateCredentialDto.t) (user : User.t)
  (w : World) (r0 : TokenResponse) :
  outcome (updateUser dto user w) = Return r0 ->
  update_rejection (User.id user) (update_literal dto) w = None
  /\ accessToken r0 = jwtService_sign (payload_of user).
Proof.
  rewrite updateUser_run.
  destruct (update_rejection _ _ w); unfold outcome; cbn [fst];
    [discriminate|].
  intros [= <-]. now split.
Qed.

(** A rejected [updateUser] has written nothing. *)
Lemma updateUser_rejected (dto : UpdateCredentialDto.t) (user : User.t)
  (w : World) (e : Thrown) :
  outcome (updateUser dto user w) = Throw e ->
  rows (world (updateUser dto user w)) = rows w.
Proof.
  rewrite updateUser_run.
  destruct (update_rejection _ _ w); unfold outcome, world; cbn [fst snd];
    [reflexivity|discriminate].
Qed.

(** Once applied, an update asks nothing new of the unique indexes. *)
Lemma update_rejection_after_update (dto : UpdateCredentialDto.t)
  (user : User.t) (w w1 : World) :
  rows w1 = map (updated_row dto user) (rows w) ->
  update_rejection (User.id user) (update_literal dto) w1 = None.
Proof.
  intro Hrows. unfold update_rejection.
  rewrite existsb_all_false; [reflexivity|].
  intros x Hx. rewrite Hrows in Hx. apply in_map_iff in Hx.
  destruct Hx as (r & <- & _). unfold updated_row.
  destruct (has_id (User.id user) r) eqn:E; [|now rewrite E].
  rewrite andb_comm. unfold takes_held_value, patch. cbn.
  destruct (UpdateCredentialDto.username dto) as [u|],
           (UpdateCredentialDto.email dto) as [m|];
    cbn; rewrite ?String.eqb_refl; reflexivity.
Qed.

(** X8.  [updateUser] is idempotent on the table: when a call resolved,
    the same update for the same user resolves again and leaves the table
    the first call made. *)
Theorem updateUser_idempotent
  (dto : UpdateCredentialDto.t) (user : User.t) (w : World)
  (r1 : TokenResponse) :
  outcome (updateUser dto user w) = Return r1 ->
  let once := world (updateUser dto user w) in
  (exists r2, outcome (updateUser dto user once) = Return r2)
  /\ rows (world (updateUser dto user once)) = rows once.
Proof.
  intros Hrun once.
  destruct (updateUser_resolved dto user w r1 Hrun) as [Hacc _].
  destruct (updateUser_accepted dto user w Hacc) as [Hrows _].
  destruct (updateUser_accepted dto user once
              (update_rejection_after_update dto user w once Hrows))
    as [Hrows2 Hout2].
  split; [eexists; exact Hout2|].
  rewrite Hrows2. subst once. rewrite Hrows, map_map. apply map_ext.
  intro r. apply updated_row_idempotent.
Qed.

Lemma updated_row_In (dto : UpdateCredentialDto.t) (user r : User.t)
  (i : nat) (w : World) :
  update_rejection (User.id user) (update_literal dto) w = None ->
  User.id user = Some i -> User.id r = Some i -> In r (rows w) ->
  In (patch (update_literal dto) r) (rows (world (updateUser dto user w))).
Proof.
  intros Hacc Hu Hr Hin.
  destruct (updateUser_accepted dto user w Hacc) as [-> _].
  apply in_map_iff. exists r. split; [|exact Hin].
  unfold updated_row. now rewrite Hu, (has_id_same i r Hr).
Qed.

(** X9.  Update then look up.  When [updateUser] resolved after giving the
    row of [user] a new e-mail, [checkEmail] answers true for the new
    e-mail; and on a table with unique e-mails it answers false for the
    old one, when the two differ.  When another row holds the new e-mail
    the store refuses the update; and after any rejected [updateUser],
    [checkEmail] answers what it answered before. *)
Theorem checkEmail_after_updateUser
  (dto : UpdateCredentialDto.t) (user r : User.t) (i : nat) (e : string)
  (w : World) :
  User.id user = Some i -> User.id r = Some i -> In r (rows w) ->
  UpdateCredentialDto.email dto = Some e ->
  let w' := world (updateUser dto user w) in
  (forall r0, outcome (updateUser dto user w) = Return r0 ->
     outcome (checkEmail (CheckEmailDto.Build e) w') = Return true
     /\ (unique_emails w -> User.email r <> e ->
         outcome (checkEmail (CheckEmailDto.Build (User.email r)) w')
         = Return false))
  /\ (forall x, In x (rows w) -> User.email x = e -> User.email r <> e ->
        outcome (updateUser dto user w)
        = Throw (FromDriver {| code := duplicate_key_code |}))
  /\ (forall err, outcome (updateUser dto user w) = Throw err ->
        forall m, outcome (checkEmail (CheckEmailDto.Build m) w')
                  = outcome (checkEmail (CheckEmailDto.Build m) w)).
Proof.
  intros Hu Hr Hin He w'. split; [|split].
  - intros r0 Hrun.
    destruct (updateUser_resolved dto user w r0 Hrun) as [Hacc _].
    rewrite !checkEmail_run. unfold outcome.
    cbn [fst CheckEmailDto.email]. split.
    + destruct (find _ (rows w')) as [x|] eqn:Hf; [reflexivity|]. exfalso.
      apply (find_email_None e (rows w') Hf (patch (update_literal dto) r)).
      * subst w'. now apply (updated_row_In dto user r i w).
      * unfold patch, update_literal. cbn. now rewrite He.
    + intros Huniq Hne.
      destruct (find _ (rows w')) as [x|] eqn:Hf; [|reflexivity]. exfalso.
      apply find_email_In in Hf. destruct Hf as [Hx Hmail].
      subst w'. destruct (updateUser_accepted dto user w Hacc) as [Hrows _].
      rewrite Hrows in Hx. apply in_map_iff in Hx.
      destruct Hx as (y & Hy & Hyin). unfold updated_row in Hy.
      destruct (has_id (User.id user) y) eqn:Hid.
      * subst x. unfold patch, update_literal in Hmail. cbn in Hmail.
        rewrite He in Hmail. cbn in Hmail. now apply Hne.
      * subst x.
        assert (y = r) by (apply (NoDup_map_inj User.email (rows w)); auto).
        subst y. rewrite Hu, (has_id_same i r Hr) in Hid. discriminate.
  - intros x Hx Hmail Hne. rewrite updateUser_run.
    unfold update_rejection.
    replace (existsb _ (rows w)) with true; [reflexivity|].
    symmetry. apply existsb_exists. exists r. split; [exact Hin|].
    rewrite Hu, (has_id_same i r Hr). cbn [andb].
    apply orb_true_iff. right. unfold takes_held_value, update_literal.
    cbn [PartialUser.email]. rewrite He. apply andb_true_iff. split.
    + apply negb_true_iff. apply String.eqb_neq. now intros ->.
    + apply existsb_exists. exists x. split; [exact Hx|].
      now apply String.eqb_eq.
  - intros err Hrun m. subst w'. rewrite !checkEmail_run. unfold outcome.
    cbn [fst]. now rewrite (updateUser_rejected dto user w err Hrun).
Qed.

(** Where [signIn] finds the row of [user] after an accepted update that
    left the e-mails alone. *)
Lemma find_after_updateUser (dto : UpdateCredentialDto.t) (user r : User.t)
  (i : nat) (w : World) :
  update_rejection (User.id user) (update_literal dto) w = None ->
  unique_emails w ->
  User.id user = Some i -> User.id r = Some i -> In r (rows w) ->
  UpdateCredentialDto.email dto = None ->
  find (fun x => String.eqb (User.email x) (User.email r))
       (rows (world (updateUser dto user w)))
  = Some (patch (update_literal dto) r).
Proof.
  intros Hacc Huniq Hu Hr Hin He.
  assert (Hmail : forall x, User.email (updated_row dto user x)
                            = User.email x).
  { intro x. unfold updated_row. destruct (has_id (User.id user) x);
      [|reflexivity].
    unfold patch, update_literal. cbn. now rewrite He. }
  replace (User.email r) with (User.email (patch (update_literal dto) r)).
  - apply find_unique_email.
    + destruct (updateUser_accepted dto user w Hacc) as [-> _].
      rewrite map_map, (map_ext _ User.email Hmail). exact Huniq.
    + now apply (updated_row_In dto user r i w).
  - unfold patch, update_literal. cbn. now rewrite He.
Qed.

(** X10.  Update then sign in.  When [updateUser] resolved after an update
    of the row of [user] that names a role and touches neither e-mail nor
    password, on a table with unique e-mails, a sign-in with that row's
    e-mail and a password its hash accepts resolves to a token signed for
    the updated row: its payload carries the role the update named.  The
    token [updateUser] itself returned was signed for the fields of its
    argument, a different payload whenever the argument's role is not the
    new one. *)
Theorem signIn_after_updateUser
  (dto : UpdateCredentialDto.t) (user r : User.t) (i : nat) (pw k v : string)
  (w : World) (r0 : TokenResponse) :
  outcome (updateUser dto user w) = Return r0 ->
  unique_emails w ->
  User.id user = Some i -> User.id r = Some i -> In r (rows w) ->
  UpdateCredentialDto.email dto = None ->
  UpdateCredentialDto.password dto = None ->
  UpdateCredentialDto.role dto = Some k -> UserRole_index k = Some v ->
  bcrypt_compare pw (User.password r) = true ->
  let w' := world (updateUser dto user w) in
  let of_row :=
    {| JwtPayload.id := Some i;
       JwtPayload.username :=
         or_else (UpdateCredentialDto.username dto) (User.username r);
       JwtPayload.email := User.email r;
       JwtPayload.role := Some v;
       JwtPayload.tmdb_key :=
         or_else (UpdateCredentialDto.tmdb_key dto) (User.tmdb_key r) |} in
  let of_argument :=
    {| JwtPayload.id := User.id user;
       JwtPayload.username := User.username user;
       JwtPayload.email := User.email user;
       JwtPayload.role := User.role user;
       JwtPayload.tmdb_key := User.tmdb_key user |} in
  outcome (signIn {| SignInCredentialsDto.email := User.email r;
                     SignInCredentialsDto.password := pw |} w')
  = Return {| accessToken := jwtService_sign of_row |}
  /\ accessToken r0 = jwtService_sign of_argument
  /\ (User.role user <> Some v -> of_row <> of_argument).
Proof.
  intros Hrun Huniq Hu Hr Hin He Hp Hk Hv Hok w' of_row of_argument.
  destruct (updateUser_resolved dto user w r0 Hrun) as [Hacc Htok].
  split; [|split].
  - rewrite signIn_run.
    cbn [SignInCredentialsDto.email SignInCredentialsDto.password].
    subst w'. rewrite (find_after_updateUser dto user r i w) by assumption.
    replace (User.password (patch (update_literal dto) r))
      with (User.password r)
      by (unfold patch, update_literal; cbn; now rewrite Hp).
    rewrite Hok. subst of_row. unfold payload_of, patch, update_literal.
    cbn. now rewrite He, Hk, Hv, Hr.
  - exact Htok.
  - intros Hne Heq. apply Hne. subst of_row of_argument.
    now injection Heq as _ _ _ <- _.
Qed.

(** X11.  Stored passwords stay hashes under every method but a password
    update: if every row holds a string the hasher produced, so it is
    after [signUp], [signIn], [refreshToken], [checkEmail] and [getUser],
    and after an [updateUser] whose update defines no password. *)
Theorem passwords_hashed_preserved (w : World) :
  passwords_hashed w ->
  (forall dto, passwords_hashed (world (signUp dto w)))
  /\ (forall dto, passwords_hashed (world (signIn dto w)))
  /\ (forall dto, passwords_hashed (world (refreshToken dto w)))
  /\ (forall dto, passwords_hashed (world (checkEmail dto w)))
  /\ (forall user, passwords_hashed (world (getUser user w)))
  /\ (forall dto user, UpdateCredentialDto.password dto = None ->
        passwords_hashed (world (updateUser dto user w))).
Proof.
  intro H. destruct (readers_keep_the_table w) as (Hsi & Hrt & Hce & Hgu).
  split; [intro dto; now apply signUp_keeps_passwords_hashed|].
  unfold passwords_hashed in *.
  split; [intro dto; now rewrite Hsi|].
  split; [intro dto; now rewrite Hrt|].
  split; [intro dto; now rewrite Hce|].
  split; [intro user; now rewrite Hgu|].
  intros dto user Hpw.
  now apply updateUser_without_password_keeps_hashes.
Qed.

(** X12.  Sign in, then refresh.  Whenever [signIn] resolves, the payload
    it had signed is made of the id, username, e-mail, role and api key of
    a stored row with the given e-mail; and [refreshToken] on those five
    fields hands the signer that same payload in every world, also one
    from which the row is gone, with no other collaborator call and no
    change to the table. *)
Theorem refreshToken_signs_signIn_payload
  (dto : SignInCredentialsDto.t) (w : World) (r : TokenResponse) :
  outcome (signIn dto w) = Return r ->
  exists u, In u (rows w)
    /\ User.email u = SignInCredentialsDto.email dto
    /\ let p := {| JwtPayload.id := User.id u;
                   JwtPayload.username := User.username u;
                   JwtPayload.email := User.email u;
                   JwtPayload.role := User.role u;
                   JwtPayload.tmdb_key := User.tmdb_key u |} in
       calls (world (signIn dto w))
       = calls w
         ++ [call_findOne (where_email (SignInCredentialsDto.email dto));
             call_compare (SignInCredentialsDto.password dto)
               (User.password u);
             call_sign p]
       /\ forall w2,
            calls (world (refreshToken (refresh_of u) w2))
            = calls w2 ++ [call_sign p]
            /\ rows (world (refreshToken (refresh_of u) w2)) = rows w2.
Proof.
  intro Hrun. rewrite signIn_run in Hrun.
  destruct (find _ (rows w)) as [u|] eqn:Hf; [|discriminate].
  destruct (bcrypt_compare _ _) eqn:Hok; [|discriminate].
  clear Hrun. pose proof (find_email_In _ _ _ Hf) as [Hin Hmail].
  exists u. split; [exact Hin|]. split; [exact Hmail|]. cbv zeta. split.
  - run. unfold row_matches. rewrite Hf. cbn. rewrite Hok. cbn.
    now repeat rewrite <- app_assoc.
  - intro w2. now split.
Qed.

(** X13.  A password sent through [updateUser] locks the account.  The
    update stores it as it came, and [signIn] hands that string to
    [bcrypt.compare] as if it were a hash: with a hasher that accepts
    nothing against it, every later sign-in to that row is rejected, the
    new password and the old one included. *)
Theorem signIn_locked_out_after_password_update
  (pw : string) (user r : User.t) (i : nat) (w : World) :
  unique_emails w ->
  User.id user = Some i -> User.id r = Some i -> In r (rows w) ->
  (forall candidate, bcrypt_compare candidate pw = false) ->
  forall candidate,
    outcome (signIn {| SignInCredentialsDto.email := User.email r;
                       SignInCredentialsDto.password := candidate |}
               (world (updateUser (new_password_only pw) user w)))
    = Throw unauthorized.
Proof.
  intros Huniq Hu Hr Hin Hnone candidate. rewrite signIn_run.
  cbn [SignInCredentialsDto.email SignInCredentialsDto.password].
  rewrite (find_after_updateUser (new_password_only pw) user r i w)
    by (assumption || reflexivity
        || now apply update_rejection_no_unique_column).
  cbn. now rewrite Hnone.
Qed.

End AuthService.

(** ** The statements at work on the demo deployment *)

(** Alice signs in with her password on the table that holds her row. *)
Lemma signIn_token_or_unauthorized_witness :
  unique_emails Demo.with_alice
  /\ outcome
       (signIn Demo.compare Demo.sign Demo.where_user
          (SignInCredentialsDto.Build "a@x.com" "p@ss1234") Demo.with_alice)
     = Return {| accessToken := Demo.sign (payload_of Demo.alice_row) |}
  /\ outcome
       (signIn Demo.compare Demo.sign Demo.where_user
          (SignInCredentialsDto.Build "a@x.com" "wrong") Demo.with_alice)
     = Throw unauthorized.
Proof.
  assert (H : unique_emails Demo.with_alice).
  { constructor; [intros []|constructor]. }
  split; [exact H|]. split.
  - apply (proj1 (signIn_token_or_unauthorized Demo.compare Demo.sign
                    Demo.where_user
                    (SignInCredentialsDto.Build "a@x.com" "p@ss1234")
                    Demo.with_alice H) Demo.alice_row).
    + left. reflexivity.
    + reflexivity.
    + reflexivity.
  - apply (proj1 (proj2 (proj2 (signIn_token_or_unauthorized Demo.compare
                    Demo.sign Demo.where_user
                    (SignInCredentialsDto.Build "a@x.com" "wrong")
                    Demo.with_alice H))) Demo.alice_row).
    + left. reflexivity.
    + reflexivity.
    + reflexivity.
Defined.

(** The sign-up of the spec's worked example, on an empty table. *)
Lemma signUp_token_payload_witness :
  valid_role Demo.UserRole (SignUpCredentialsDto.role Demo.alice)
  /\ save_fault Demo.empty = None
  /\ exists p,
       outcome
         (signUp Demo.genSalt Demo.hash Demo.sign Demo.UserRole "USER"
            Demo.duplicate_key_code Demo.alice Demo.empty)
       = Return {| accessToken := Demo.sign p |}
       /\ JwtPayload.username p = "alice"
       /\ JwtPayload.email p = "a@x.com"
       /\ JwtPayload.role p = Some "USER"
       /\ (forall decode, inverts_sign Demo.sign decode ->
             forall r,
               outcome
                 (signUp Demo.genSalt Demo.hash Demo.sign Demo.UserRole
                    "USER" Demo.duplicate_key_code Demo.alice Demo.empty)
               = Return r ->
               decode (accessToken r) = Some p).
Proof.
  split; [exact I|]. split; [reflexivity|].
  apply (signUp_token_payload Demo.genSalt Demo.hash Demo.sign Demo.UserRole
           "USER" Demo.duplicate_key_code Demo.alice Demo.empty).
  - exact I.
  - intros r [].
  - reflexivity.
Defined.

(** Alice signs up twice on a driver that reports the string ['11000'];
    and once while the connection is down. *)
Lemma signUp_conflict_or_internal_witness :
  Demo.duplicate_key_code = JsString "11000"
  /\ outcome
       (signUp Demo.genSalt Demo.hash Demo.sign Demo.UserRole "USER"
          Demo.duplicate_key_code Demo.alice
          (world (signUp Demo.genSalt Demo.hash Demo.sign Demo.UserRole
                    "USER" Demo.duplicate_key_code Demo.alice Demo.empty)))
     = Throw (Http (ConflictException "Username already exists"))
  /\ outcome
       (signUp Demo.genSalt Demo.hash Demo.sign Demo.UserRole "USER"
          Demo.duplicate_key_code Demo.alice Demo.offline)
     = Throw (Http InternalServerErrorException).
Proof.
  split; [reflexivity|]. split.
  - apply (proj2 (proj2 (signUp_conflict_or_internal Demo.genSalt Demo.hash
                    Demo.sign Demo.UserRole "USER" Demo.duplicate_key_code
                    Demo.alice _ eq_refl))
             Demo.alice
             {| accessToken :=
                  Demo.sign
                    (payload_of
                       (new_user Demo.genSalt Demo.hash Demo.UserRole "USER"
                          Demo.alice Demo.empty)) |}
             Demo.empty).
    + reflexivity.
    + reflexivity.
  - apply (proj1 (signUp_conflict_or_internal Demo.genSalt Demo.hash
                    Demo.sign Demo.UserRole "USER" Demo.duplicate_key_code
                    Demo.alice Demo.offline eq_refl)
             {| code := JsString "ECONNREFUSED" |}).
    + reflexivity.
    + discriminate.
Defined.

(** C3, at the input that breaks it.  The comment at lines 56-57 names
    two stores.  The driver of the one reports a broken unique index with
    the number 11000, that of the other with the string ['23505'].  With
    either, Alice's first sign-up resolves and her second, which repeats
    her username and e-mail, ends in the Internal error and not in
    Conflict: the [===] of line 55 against the string ['11000'] matches
    neither code. *)
Theorem signUp_repeated_email_is_internal_error :
  let signUp_on code :=
    signUp Demo.genSalt Demo.hash Demo.sign Demo.UserRole "USER" code in
  let first code := signUp_on code Demo.alice Demo.empty in
  let second code := signUp_on code Demo.alice (world (first code)) in
  (outcome (first (JsNumber 11000))
   = Return {| accessToken := "jwt(alice,a@x.com,USER,k1)" |}
   /\ outcome (second (JsNumber 11000))
      = Throw (Http InternalServerErrorException)
   /\ rows (world (second (JsNumber 11000))) = [Demo.alice_row])
  /\ (outcome (first (JsString "23505"))
      = Return {| accessToken := "jwt(alice,a@x.com,USER,k1)" |}
      /\ outcome (second (JsString "23505"))
         = Throw (Http InternalServerErrorException)
      /\ rows (world (second (JsString "23505"))) = [Demo.alice_row]).
Proof. repeat split. Qed.

(** ** Runs of the spec's worked example *)

(** Alice signs up on an empty table: the token names her, her e-mail, the
    default role and her api key, and her row is stored under identity 0
    with the hash in the password column. *)
Example alice_signs_up :
  signUp Demo.genSalt Demo.hash Demo.sign Demo.UserRole "USER"
    Demo.duplicate_key_code Demo.alice Demo.empty
  = (Return {| accessToken := "jwt(alice,a@x.com,USER,k1)" |},
     {| rows := [Demo.alice_row]; next_id := 1; save_fault := None;
        salts_drawn := 1;
        calls := [call_genSalt;
                  call_hash "p@ss1234" (Demo.genSalt 0);
                  call_create
                    (User.Build None "alice"
                       (Demo.hash "p@ss1234" (Demo.genSalt 0)) "a@x.com"
                       "k1" (Some "USER"));
                  call_sign
                    (JwtPayload.Build None "alice" "a@x.com" (Some "USER")
                       "k1");
                  call_save
                    (User.Build None "alice"
                       (Demo.hash "p@ss1234" (Demo.genSalt 0)) "a@x.com"
                       "k1" (Some "USER"))] |}).
Proof. reflexivity. Qed.

(** With a driver that reports the duplicate key as the number 11000, the
    comparison with the string fails and the second sign-up ends in the
    Internal error. *)
Example numeric_duplicate_code_is_internal :
  outcome
    (signUp Demo.genSalt Demo.hash Demo.sign Demo.UserRole "USER"
       (JsNumber 11000) Demo.alice Demo.with_alice)
  = Throw (Http InternalServerErrorException).
Proof. reflexivity. Qed.

(** Alice is promoted: her row now says ADMIN, the token still says USER. *)
Example alice_promoted_token_is_stale :
  let dto := UpdateCredentialDto.Build None None None None (Some "ADMIN") in
  let run := updateUser Demo.sign Demo.UserRole Demo.duplicate_key_code dto
               Demo.alice_row Demo.with_alice in
  map User.role (rows (world run)) = [Some "ADMIN"]
  /\ outcome run = Return {| accessToken := "jwt(alice,a@x.com,USER,k1)" |}.
Proof. split; reflexivity. Qed.

(** [getUser] hands back what it was given, not the row it found. *)
Example getUser_echoes_argument :
  let stale := User.Build (Some 7) "alice" "" "old@x.com" "k0" None in
  find (Demo.where_user stale) (rows Demo.with_alice) = Some Demo.alice_row
  /\ outcome (getUser Demo.where_user stale Demo.with_alice) = Return stale.
Proof. split; reflexivity. Qed.

(** An e-mail nobody registered; and Alice's, after her sign-up. *)
Example checkEmail_on_the_demo_table :
  outcome (checkEmail Demo.where_user (CheckEmailDto.Build "b@x.com")
             Demo.with_alice) = Return false
  /\ outcome (checkEmail Demo.where_user (CheckEmailDto.Build "a@x.com")
                Demo.with_alice) = Return true.
Proof. split; reflexivity. Qed.

(** ** The further properties on the demo deployment *)

(** Alice signs up on the empty table, then signs in. *)
Lemma signIn_after_signUp_witness :
  outcome
    (signIn Demo.compare Demo.sign Demo.where_user
       (credentials_of Demo.alice)
       (world (signUp Demo.genSalt Demo.hash Demo.sign Demo.UserRole "USER"
                 Demo.duplicate_key_code Demo.alice Demo.empty)))
  = Return {| accessToken := Demo.sign (payload_of Demo.alice_row) |}.
Proof.
  exact (proj1 (signIn_after_signUp Demo.genSalt Demo.hash Demo.compare
                  Demo.sign Demo.UserRole "USER" Demo.duplicate_key_code
                  Demo.where_user Demo.alice Demo.empty
                  (world (signUp Demo.genSalt Demo.hash Demo.sign
                            Demo.UserRole "USER" Demo.duplicate_key_code
                            Demo.alice Demo.empty))
                  {| accessToken := "jwt(alice,a@x.com,USER,k1)" |}
                  eq_refl eq_refl)).
Defined.

(** Alice signs up while the connection is down. *)
Lemma signUp_rejected_stores_nothing_witness :
  outcome
    (signUp Demo.genSalt Demo.hash Demo.sign Demo.UserRole "USER"
       Demo.duplicate_key_code Demo.alice Demo.offline)
  = Throw internal_error
  /\ rows (world (signUp Demo.genSalt Demo.hash Demo.sign Demo.UserRole
                    "USER" Demo.duplicate_key_code Demo.alice Demo.offline))
     = rows Demo.offline.
Proof.
  split; [reflexivity|].
  exact (proj1 (proj2 (signUp_rejected_stores_nothing Demo.genSalt Demo.hash
                         Demo.sign Demo.UserRole "USER"
                         Demo.duplicate_key_code Demo.alice Demo.offline
                         internal_error eq_refl))).
Defined.

(** Bob signs up on the table that holds Alice. *)
Lemma signUp_keeps_unique_indexes_witness :
  let bob := SignUpCredentialsDto.Build "bob" "s3cret!" "b@x.com" "k2" None in
  unique_usernames Demo.with_alice /\ unique_emails Demo.with_alice
  /\ unique_usernames
       (world (signUp Demo.genSalt Demo.hash Demo.sign Demo.UserRole "USER"
                 Demo.duplicate_key_code bob Demo.with_alice))
  /\ unique_emails
       (world (signUp Demo.genSalt Demo.hash Demo.sign Demo.UserRole "USER"
                 Demo.duplicate_key_code bob Demo.with_alice)).
Proof.
  intro bob.
  assert (Hu : unique_usernames Demo.with_alice).
  { constructor; [intros []|constructor]. }
  assert (He : unique_emails Demo.with_alice).
  { constructor; [intros []|constructor]. }
  split; [exact Hu|]. split; [exact He|].
  exact (signUp_keeps_unique_indexes Demo.genSalt Demo.hash Demo.sign
           Demo.UserRole "USER" Demo.duplicate_key_code bob Demo.with_alice
           Hu He).
Defined.

(** A sign-up whose role is the empty string. *)
Lemma signUp_role_edge_cases_witness :
  let dto := SignUpCredentialsDto.Build "carol" "s3cret!" "c@x.com" "k3"
               (Some "") in
  rows (world (signUp Demo.genSalt Demo.hash Demo.sign Demo.UserRole "USER"
                 Demo.duplicate_key_code dto Demo.empty))
  = [User.Build (Some 0) "carol" (Demo.hash "s3cret!" (Demo.genSalt 0))
       "c@x.com" "k3" (Some "USER")].
Proof.
  intro dto.
  exact (proj1 (proj1 (signUp_role_edge_cases Demo.genSalt Demo.hash
                         Demo.sign Demo.UserRole "USER"
                         Demo.duplicate_key_code dto Demo.empty
                         {| accessToken := "jwt(carol,c@x.com,USER,k3)" |}
                         eq_refl) eq_refl)).
Defined.

(** Alice signs up again; the driver reports the number 11000. *)
Lemma signUp_duplicate_other_code_is_internal_witness :
  JsNumber 11000 <> JsString "11000"
  /\ outcome
       (signUp Demo.genSalt Demo.hash Demo.sign Demo.UserRole "USER"
          (JsNumber 11000) Demo.alice Demo.with_alice)
     = Throw internal_error.
Proof.
  assert (H : JsNumber 11000 <> JsString "11000") by discriminate.
  split; [exact H|].
  apply (signUp_duplicate_other_code_is_internal Demo.genSalt Demo.hash
           Demo.sign Demo.UserRole "USER" (JsNumber 11000) Demo.alice
           Demo.with_alice H eq_refl).
  exists Demo.alice_row. split; [now left|]. right. reflexivity.
Defined.

(** An update for an identity the table does not hold. *)
Lemma updateUser_unknown_id_still_resolves_witness :
  let ghost := User.Build (Some 7) "ghost" "" "g@x.com" "k7" (Some "USER") in
  let dto := UpdateCredentialDto.Build None None None None (Some "ADMIN") in
  rows (world (updateUser Demo.sign Demo.UserRole Demo.duplicate_key_code
                 dto ghost Demo.with_alice))
  = rows Demo.with_alice
  /\ outcome (updateUser Demo.sign Demo.UserRole Demo.duplicate_key_code
                dto ghost Demo.with_alice)
     = Return {| accessToken := Demo.sign (payload_of ghost) |}.
Proof.
  intros ghost dto.
  apply (updateUser_unknown_id_still_resolves Demo.sign Demo.UserRole
           Demo.duplicate_key_code dto ghost Demo.with_alice).
  intros r [<-|[]]. discriminate.
Defined.

(** Alice takes a new username twice in a row. *)
Lemma updateUser_idempotent_witness :
  let dto := UpdateCredentialDto.Build (Some "alicia") None None None None in
  let once := world (updateUser Demo.sign Demo.UserRole
                       Demo.duplicate_key_code dto Demo.alice_row
                       Demo.with_alice) in
  map User.username (rows once) = ["alicia"]
  /\ rows (world (updateUser Demo.sign Demo.UserRole Demo.duplicate_key_code
                    dto Demo.alice_row once))
     = rows once.
Proof.
  intros dto once. split; [reflexivity|].
  exact (proj2 (updateUser_idempotent Demo.sign Demo.UserRole
                  Demo.duplicate_key_code dto Demo.alice_row Demo.with_alice
                  {| accessToken := "jwt(alice,a@x.com,USER,k1)" |}
                  eq_refl)).
Defined.

(** Alice changes her e-mail. *)
Lemma checkEmail_after_updateUser_witness :
  let dto := UpdateCredentialDto.Build None None (Some "alice@y.org") None
               None in
  let w' := world (updateUser Demo.sign Demo.UserRole
                     Demo.duplicate_key_code dto Demo.alice_row
                     Demo.with_alice) in
  outcome (checkEmail Demo.where_user (CheckEmailDto.Build "alice@y.org") w')
  = Return true
  /\ outcome (checkEmail Demo.where_user (CheckEmailDto.Build "a@x.com") w')
     = Return false.
Proof.
  intros dto w'.
  destruct (proj1 (checkEmail_after_updateUser Demo.sign Demo.UserRole
                     Demo.duplicate_key_code Demo.where_user dto
                     Demo.alice_row Demo.alice_row 0 "alice@y.org"
                     Demo.with_alice eq_refl eq_refl (or_introl eq_refl)
                     eq_refl)
              {| accessToken := "jwt(alice,a@x.com,USER,k1)" |} eq_refl)
    as [Hnew Hold].
  split; [exact Hnew|]. apply Hold.
  - constructor; [intros []|constructor].
  - discriminate.
Defined.

(** Alice is promoted, then signs in. *)
Lemma signIn_after_updateUser_witness :
  let dto := UpdateCredentialDto.Build None None None None (Some "ADMIN") in
  outcome
    (signIn Demo.compare Demo.sign Demo.where_user
       (SignInCredentialsDto.Build "a@x.com" "p@ss1234")
       (world (updateUser Demo.sign Demo.UserRole Demo.duplicate_key_code
                 dto Demo.alice_row Demo.with_alice)))
  = Return {| accessToken := "jwt(alice,a@x.com,ADMIN,k1)" |}.
Proof.
  intro dto.
  refine (proj1 (signIn_after_updateUser Demo.compare Demo.sign Demo.UserRole
                   Demo.duplicate_key_code Demo.where_user dto
                   Demo.alice_row Demo.alice_row 0 "p@ss1234" "ADMIN"
                   "ADMIN" Demo.with_alice
                   {| accessToken := "jwt(alice,a@x.com,USER,k1)" |}
                   eq_refl _ eq_refl eq_refl (or_introl eq_refl) eq_refl
                   eq_refl eq_refl eq_refl eq_refl)).
  constructor; [intros []|constructor].
Defined.

(** The demo table holds a hash, and still does after Bob signs up. *)
Lemma passwords_hashed_preserved_witness :
  let bob := SignUpCredentialsDto.Build "bob" "s3cret!" "b@x.com" "k2" None in
  passwords_hashed Demo.hash Demo.with_alice
  /\ passwords_hashed Demo.hash
       (world (signUp Demo.genSalt Demo.hash Demo.sign Demo.UserRole "USER"
                 Demo.duplicate_key_code bob Demo.with_alice)).
Proof.
  intro bob.
  assert (H : passwords_hashed Demo.hash Demo.with_alice).
  { constructor; [|constructor].
    exists "p@ss1234". exists (Demo.genSalt 0). reflexivity. }
  split; [exact H|].
  exact (proj1 (passwords_hashed_preserved Demo.genSalt Demo.hash
                  Demo.compare Demo.sign Demo.UserRole "USER"
                  Demo.duplicate_key_code Demo.where_user Demo.with_alice H)
           bob).
Defined.

(** Alice signs in; a refresh with the fields of her row, on an empty
    table, has the same payload signed. *)
Lemma refreshToken_signs_signIn_payload_witness :
  exists u, In u (rows Demo.with_alice)
    /\ User.email u = "a@x.com"
    /\ calls (world (refreshToken Demo.sign (refresh_of u) Demo.empty))
       = [call_sign (JwtPayload.Build (User.id u) (User.username u)
                       (User.email u) (User.role u) (User.tmdb_key u))].
Proof.
  destruct (refreshToken_signs_signIn_payload Demo.compare Demo.sign
              Demo.where_user
              (SignInCredentialsDto.Build "a@x.com" "p@ss1234")
              Demo.with_alice
              {| accessToken := "jwt(alice,a@x.com,USER,k1)" |} eq_refl)
    as (u & Hin & Hmail & _ & Hrefresh).
  exists u. split; [exact Hin|]. split; [exact Hmail|].
  exact (proj1 (Hrefresh Demo.empty)).
Defined.

(** Alice sets the password hunter2 through an update and cannot sign in
    with it. *)
Lemma signIn_locked_out_after_password_update_witness :
  (forall candidate, Demo.compare candidate "hunter2" = false)
  /\ outcome
       (signIn Demo.compare Demo.sign Demo.where_user
          (SignInCredentialsDto.Build "a@x.com" "hunter2")
          (world (updateUser Demo.sign Demo.UserRole Demo.duplicate_key_code
                    (new_password_only "hunter2") Demo.alice_row
                    Demo.with_alice)))
     = Throw unauthorized.
Proof.
  assert (H : forall candidate, Demo.compare candidate "hunter2" = false).
  { intro candidate. reflexivity. }
  split; [exact H|].
  refine (signIn_locked_out_after_password_update Demo.compare Demo.sign
            Demo.UserRole Demo.duplicate_key_code Demo.where_user "hunter2"
            Demo.alice_row Demo.alice_row 0 Demo.with_alice _ eq_refl
            eq_refl (or_introl eq_refl) H "hunter2").
  constructor; [intros []|constructor].
Defined.

(** ** Updates that run into a unique index *)

(** Alice asks for Bob's username: the store refuses, [updateUser] rejects
    with the driver's error, and both rows keep their usernames. *)
Example updateUser_taken_username_is_rejected :
  let bob_row := User.Build (Some 1) "bob"
                   (Demo.hash "s3cret!" (Demo.genSalt 0)) "b@x.com" "k2"
                   (Some "USER") in
  let w := {| rows := [Demo.alice_row; bob_row]; next_id := 2;
              save_fault := None; salts_drawn := 2; calls := [] |} in
  let dto := UpdateCredentialDto.Build (Some "bob") None None None
               (Some "ADMIN") in
  let run := updateUser Demo.sign Demo.UserRole (JsNumber 11000) dto
               Demo.alice_row w in
  outcome run = Throw (FromDriver {| code := JsNumber 11000 |})
  /\ map User.username (rows (world run)) = ["alice"; "bob"]
  /\ map User.role (rows (world run)) = [Some "USER"; Some "USER"].
Proof. repeat split. Qed.
